(** * Function-tree to multi-function-network builder, and BVM function lookups

    A shallow embedding of
    - [source/blender/functions/intern/node_tree_multi_function_network/builder.cc]
      (namespace [FN]: the builder that lowers a function tree to a
      multi-function network and records the socket map), and
    - [source/blender/blenvm/compile/bvm_function.cc]
      (namespace [blenvm]: argument and return value tables of a compiled
      function).

    Conventions.  A call that has no defined result (a failed [BLI_assert] in
    a debug build, an index past the end of an array, a dereferenced end
    iterator, a key missing from a table) is [None]; everything else is
    [Some].  Mutable members are threaded explicitly: an operation takes the
    builder and returns the new builder next to its result.  [uint] ids are
    [nat] (no arithmetic on them can wrap here), [int] enum values are [Z]. *)

From stdpp Require Import base option list gmap strings.

Local Open Scope string_scope.
Local Open Scope Z_scope.
Local Open Scope nat_scope.
Local Open Scope list_scope.

(** Debug builds define [DEBUG] and keep [BLI_assert]; release builds define
    [NDEBUG] and compile [BLI_assert] to nothing. *)
Inductive BuildMode := DEBUG | NDEBUG.

Definition BLI_assert (mode : BuildMode) (cond : bool) : option unit :=
  match mode with
  | DEBUG => if cond then Some tt else None
  | NDEBUG => Some tt
  end.

(** ** namespace blenvm (bvm_function.cc) *)
Module blenvm.

Section function_bvm.

(** [TypeDesc] and [StackIndex] are declared in headers outside of the
    sources at hand; nothing below inspects them. *)
Context {TypeDesc StackIndex : Type}.

Record Argument := mkArgument {
  typedesc : TypeDesc;
  name : string;
  stack_offset : StackIndex;
}.

(** [ArgumentList] is a [std::vector<Argument>]. *)
Record FunctionBVM := mkFunctionBVM {
  m_arguments : list Argument;
  m_return_values : list Argument;
}.

Definition FunctionBVM_new : FunctionBVM := mkFunctionBVM [] [].

Definition num_arguments (f : FunctionBVM) : nat := length (m_arguments f).
Definition num_return_values (f : FunctionBVM) : nat :=
  length (m_return_values f).

(** [argument(size_t index)]: [m_arguments[index]], undefined past the end. *)
Definition argument_at (f : FunctionBVM) (index : nat) : option Argument :=
  m_arguments f !! index.
Definition return_value_at (f : FunctionBVM) (index : nat) : option Argument :=
  m_return_values f !! index.

(** The iterator loop shared by the two name-keyed lookups:
    a [for] loop from [begin] to [end] that returns the first element
    whose [name] equals the key, followed by a return of the element under
    the end iterator, which denotes no element. *)
Fixpoint scan_by_name (it : list Argument) (key : string) : option Argument :=
  match it with
  | [] => None
  | a :: rest =>
      if String.eqb (name a) key then Some a else scan_by_name rest key
  end.

Definition argument (f : FunctionBVM) (key : string) : option Argument :=
  scan_by_name (m_arguments f) key.
Definition return_value (f : FunctionBVM) (key : string) : option Argument :=
  scan_by_name (m_return_values f) key.

Definition add_argument (f : FunctionBVM) (td : TypeDesc) (key : string)
    (off : StackIndex) : FunctionBVM :=
  mkFunctionBVM (m_arguments f ++ [mkArgument td key off]) (m_return_values f).
Definition add_return_value (f : FunctionBVM) (td : TypeDesc) (key : string)
    (off : StackIndex) : FunctionBVM :=
  mkFunctionBVM (m_arguments f) (m_return_values f ++ [mkArgument td key off]).

(** [a] is the first entry of [l] named [key]. *)
Definition first_named (l : list Argument) (key : string) (a : Argument) : Prop :=
  ∃ before after,
    l = before ++ a :: after ∧ name a = key ∧
    Forall (λ b, name b ≠ key) before.

End function_bvm.

(** A function of two arguments and one return value, with strings for
    type descriptions and integers for stack offsets. *)
Definition example_function : FunctionBVM (TypeDesc:=string) (StackIndex:=Z) :=
  add_return_value
    (add_argument (add_argument FunctionBVM_new "float" "x" 0%Z) "float" "y" 1%Z)
    "float" "result" 2%Z.

End blenvm.

(** ** namespace FN (builder.cc) *)
Module FN.

(** The property layer of the host (RNA) is reached through three reads only:
    a string property, an enum property, and the items of a collection
    property.  The layer itself is outside of the sources at hand, so it is an
    interface here. *)
Class PropertyReader (PointerRNA : Type) := {
  RNA_string : PointerRNA → string → string;
  RNA_enum_get : PointerRNA → string → Z;
  RNA_collection : PointerRNA → string → list PointerRNA;
}.

Section builder.

Context {CPPType : Type} `{!EqDecision CPPType}.
Context {PointerRNA : Type} `{!PropertyReader PointerRNA}.
(** The sentinel of the id tables, a macro of a header outside of the
    sources at hand. *)
Variable IdMultiMap_UNMAPPED : nat.

(** [RNA_string_get_alloc(ptr, name, nullptr, 0)] returns a fresh copy of the
    property; [RNA_string_get(ptr, name, buffer)] copies it, with its
    terminator, into a caller-owned buffer and overruns a buffer that is too
    small. *)
Definition RNA_string_get_alloc (rna : PointerRNA) (prop_name : string) : string :=
  RNA_string rna prop_name.
Definition RNA_string_get (capacity : nat) (rna : PointerRNA)
    (prop_name : string) : option string :=
  let value := RNA_string rna prop_name in
  if decide (String.length value < capacity) then Some value else None.

Definition STREQ (a b : string) : bool := String.eqb a b.

(** *** The graph side: function tree, nodes and sockets *)

(** Modelled from the spec: the classes of the function tree ([FSocket],
    [FNode], [FunctionNodeTree]), the data types and the preprocessed and
    mapping tables are declared in headers outside of the sources at hand.
    The records keep what the builder reads: a socket has an id, a name and
    a direction; a node has a name, its ordered input and output sockets and
    its properties; the tree counts its sockets. *)

(** A data type is a single value or a list of values of a [CPPType]. *)
Inductive MFDataType := MFSingle (t : CPPType) | MFVector (t : CPPType).

#[global] Instance MFDataType_eq_dec : EqDecision MFDataType.
Proof. solve_decision. Defined.

Record FSocket := mkFSocket {
  fsocket_id : nat;
  fsocket_name : string;
  fsocket_is_input : bool;
}.

Record FNode := mkFNode {
  fnode_name : string;
  fnode_inputs : list FSocket;
  fnode_outputs : list FSocket;
  fnode_rna : PointerRNA;
}.

Record FunctionNodeTree := mkFunctionNodeTree { tree_nodes : list FNode }.

Definition socket_count (tree : FunctionNodeTree) : nat :=
  sum_list ((λ n, length (fnode_inputs n) + length (fnode_outputs n)) <$> tree_nodes tree).

(** The socket classifier computed ahead of the build. *)
Record PreprocessedVTreeMFData := mkPreprocessed {
  try_lookup_data_type : FSocket → option MFDataType;
}.

(** The fixed type-name tables of the compile-time mapping context. *)
Record VTreeMultiFunctionMappings := mkMappings {
  cpp_type_by_type_name : gmap string CPPType;
  data_type_by_type_name : gmap string MFDataType;
}.

(** *** Callables *)

(** A callable is one supplied by the caller, with its declared signature,
    or the vectorizing wrapper around another callable. *)
Inductive MultiFunction :=
  | MF_Custom (fn_name : string) (inputs outputs : list (string * MFDataType))
  | MF_SimpleVectorize (base : MultiFunction) (input_is_vectorized : list bool).

Definition to_vector_type (t : MFDataType) : MFDataType :=
  match t with MFSingle c | MFVector c => MFVector c end.

Fixpoint mf_name (fn : MultiFunction) : string :=
  match fn with
  | MF_Custom n _ _ => n
  | MF_SimpleVectorize base _ => mf_name base
  end.

(** Modelled from the spec: the signature of [MF_SimpleVectorize], whose
    class is outside of the sources at hand ("lifts the base operation to
    operate element-wise over list-valued inputs while broadcasting
    single-valued inputs, with the same output arity/types as the base, now
    list-typed where vectorized"). *)
Fixpoint mf_inputs (fn : MultiFunction) : list (string * MFDataType) :=
  match fn with
  | MF_Custom _ ins _ => ins
  | MF_SimpleVectorize base flags =>
      zip_with (λ p (v : bool), if v then (p.1, to_vector_type p.2) else p)
               (mf_inputs base) flags
  end.
Fixpoint mf_outputs (fn : MultiFunction) : list (string * MFDataType) :=
  match fn with
  | MF_Custom _ _ outs => outs
  | MF_SimpleVectorize base _ => (λ p, (p.1, to_vector_type p.2)) <$> mf_outputs base
  end.

(** The resource collector owns the callables constructed during a build. *)
Definition ResourceCollector := list MultiFunction.

(** *** The network side: MFNetworkBuilder *)

(** Modelled from the spec: the node and socket classes of the network under
    construction are declared in headers outside of the sources at hand.  A
    network socket belongs to one node and carries a name and a resolved data
    type; a node is a function node or a dummy node. *)

Record MFBuilderSocket := mkSocket {
  socket_id : nat;
  socket_node : nat;
  socket_is_output : bool;
  socket_index : nat;
  socket_name : string;
  socket_data_type : MFDataType;
}.

(** A function node carries its callable; a dummy node carries none. *)
Record MFBuilderNode := mkNode {
  node_id : nat;
  node_name : string;
  node_function : option MultiFunction;
  node_inputs : list MFBuilderSocket;
  node_outputs : list MFBuilderSocket;
}.

Record MFNetworkBuilder := mkNetworkBuilder {
  m_node_by_id : list MFBuilderNode;
  m_socket_by_id : list MFBuilderSocket;
}.

Definition make_sockets (node : nat) (is_output : bool) (first_id : nat)
    (params : list (string * MFDataType)) : list MFBuilderSocket :=
  imap (λ i p, mkSocket (first_id + i) node is_output i p.1 p.2) params.

(** Modelled from the spec: [MFNetworkBuilder] is outside of the sources at
    hand.  A new node is appended to the network with one typed, named
    socket per declared input and output; nodes and sockets get the next
    free integer ids ("indexed by stable integer ids"), and nothing that is
    already in the network is touched. *)
Definition MFNetworkBuilder_add_node (b : MFNetworkBuilder) (name : string)
    (fn : option MultiFunction) (ins outs : list (string * MFDataType))
    : MFBuilderNode * MFNetworkBuilder :=
  let id := length (m_node_by_id b) in
  let first := length (m_socket_by_id b) in
  let inputs := make_sockets id false first ins in
  let outputs := make_sockets id true (first + length ins) outs in
  let node := mkNode id name fn inputs outputs in
  (node, mkNetworkBuilder (m_node_by_id b ++ [node])
                          (m_socket_by_id b ++ inputs ++ outputs)).

Definition MFNetworkBuilder_add_function (b : MFNetworkBuilder)
    (function : MultiFunction) : MFBuilderNode * MFNetworkBuilder :=
  MFNetworkBuilder_add_node b (mf_name function) (Some function)
    (mf_inputs function) (mf_outputs function).

Definition MFNetworkBuilder_add_dummy (b : MFNetworkBuilder) (name : string)
    (input_types output_types : list MFDataType)
    (input_names output_names : list string) : MFBuilderNode * MFNetworkBuilder :=
  MFNetworkBuilder_add_node b name None
    (zip input_names input_types) (zip output_names output_types).

(** *** The socket map under construction: IdMultiMap *)

(** Modelled from the spec: [IdMultiMap] is outside of the sources at hand.
    "graph socket id -> network socket id, appended, not overwritten,
    supporting one-to-many"; a key that was never added looks up to the
    empty list. *)
Definition IdMultiMap_lookup (m : gmap nat (list nat)) (key : nat) : list nat :=
  default [] (m !! key).
Definition IdMultiMap_add (m : gmap nat (list nat)) (key value : nat)
    : gmap nat (list nat) :=
  <[key := IdMultiMap_lookup m key ++ [value]]> m.

(** *** FunctionTreeMFNetworkBuilder *)

Record FunctionTreeMFNetworkBuilder := mkBuilder {
  m_function_tree : FunctionNodeTree;
  m_preprocessed_function_tree_data : PreprocessedVTreeMFData;
  m_function_tree_mappings : VTreeMultiFunctionMappings;
  m_resources : ResourceCollector;
  m_socket_by_fsocket : gmap nat (list nat);
  m_builder : MFNetworkBuilder;
}.

Definition with_builder (this : FunctionTreeMFNetworkBuilder)
    (b : MFNetworkBuilder) : FunctionTreeMFNetworkBuilder :=
  mkBuilder (m_function_tree this) (m_preprocessed_function_tree_data this)
    (m_function_tree_mappings this) (m_resources this)
    (m_socket_by_fsocket this) b.
Definition with_socket_by_fsocket (this : FunctionTreeMFNetworkBuilder)
    (m : gmap nat (list nat)) : FunctionTreeMFNetworkBuilder :=
  mkBuilder (m_function_tree this) (m_preprocessed_function_tree_data this)
    (m_function_tree_mappings this) (m_resources this) m (m_builder this).
Definition with_resources (this : FunctionTreeMFNetworkBuilder)
    (r : ResourceCollector) : FunctionTreeMFNetworkBuilder :=
  mkBuilder (m_function_tree this) (m_preprocessed_function_tree_data this)
    (m_function_tree_mappings this) r (m_socket_by_fsocket this)
    (m_builder this).

(** The constructor: a socket map without entries (its capacity, the
    socket count of the tree, has no counterpart in a finite map) and an
    empty network. *)
Definition FunctionTreeMFNetworkBuilder_new (function_tree : FunctionNodeTree)
    (preprocessed : PreprocessedVTreeMFData)
    (mappings : VTreeMultiFunctionMappings) (resources : ResourceCollector)
    : FunctionTreeMFNetworkBuilder :=
  mkBuilder function_tree preprocessed mappings resources ∅
    (mkNetworkBuilder [] []).

(** Modelled from the spec: the inline members of the builder's header,
    which is outside of the sources at hand.  The classifier is "the single
    source of truth": a socket is a data socket exactly when it has a data
    type.  [map_sockets] records one pair in the socket map.  Looking up a
    graph input socket yields the list of network sockets it maps to;
    looking up a graph output socket yields a single socket reference: the
    socket of its entry, when it has exactly one. *)
Definition try_get_data_type (this : FunctionTreeMFNetworkBuilder)
    (fsocket : FSocket) : option MFDataType :=
  try_lookup_data_type (m_preprocessed_function_tree_data this) fsocket.

Definition is_data_socket (this : FunctionTreeMFNetworkBuilder)
    (fsocket : FSocket) : bool :=
  bool_decide (is_Some (try_get_data_type this fsocket)).

Definition map_sockets (this : FunctionTreeMFNetworkBuilder)
    (fsocket : FSocket) (socket : MFBuilderSocket) : FunctionTreeMFNetworkBuilder :=
  with_socket_by_fsocket this
    (IdMultiMap_add (m_socket_by_fsocket this) (fsocket_id fsocket) (socket_id socket)).



(** What the single-reference lookup yields for a graph output socket that
    does not have exactly one entry is decided in the header, which is
    outside of the sources at hand, and by nothing in the specification: it
    is left open. *)
Variable lookup_socket_not_single :
  FunctionTreeMFNetworkBuilder → FSocket → option MFBuilderSocket.


Definition construct_fn_SimpleVectorize (this : FunctionTreeMFNetworkBuilder)
    (base : MultiFunction) (input_is_vectorized : list bool)
    : MultiFunction * FunctionTreeMFNetworkBuilder :=
  let fn := MF_SimpleVectorize base input_is_vectorized in
  (fn, with_resources this (m_resources this ++ [fn])).

(** **** builder.cc, lines 21-32: the two [add_function] overloads *)

Definition add_function (this : FunctionTreeMFNetworkBuilder)
    (function : MultiFunction) : MFBuilderNode * FunctionTreeMFNetworkBuilder :=
  let '(node, b) := MFNetworkBuilder_add_function (m_builder this) function in
  (node, with_builder this b).

(** **** builder.cc, lines 62-79: [map_data_sockets] *)

(** One of the two loops: [data_count] is the running counter
    ([data_inputs] or [data_outputs]) and [sockets] the network node's
    socket array, indexed by the counter.  An index past the end of the
    array has no defined result. *)
Fixpoint map_data_sockets_loop (this : FunctionTreeMFNetworkBuilder)
    (fsockets : list FSocket) (sockets : list MFBuilderSocket)
    (data_count : nat) : option FunctionTreeMFNetworkBuilder :=
  match fsockets with
  | [] => Some this
  | fsocket :: rest =>
      if is_data_socket this fsocket then
        socket ← sockets !! data_count;
        map_data_sockets_loop (map_sockets this fsocket socket) rest sockets
                              (S data_count)
      else map_data_sockets_loop this rest sockets data_count
  end.

Definition map_data_sockets (this : FunctionTreeMFNetworkBuilder)
    (fnode : FNode) (node : MFBuilderNode) : option FunctionTreeMFNetworkBuilder :=
  this ← map_data_sockets_loop this (fnode_inputs fnode) (node_inputs node) 0;
  map_data_sockets_loop this (fnode_outputs fnode) (node_outputs node) 0.

Definition add_function_fnode (this : FunctionTreeMFNetworkBuilder)
    (function : MultiFunction) (fnode : FNode)
    : option (MFBuilderNode * FunctionTreeMFNetworkBuilder) :=
  let '(node, this) := add_function this function in
  this ← map_data_sockets this fnode node;
  Some (node, this).

(** **** builder.cc, lines 34-60: [add_dummy] *)

(** One of the two collecting loops, appending to the type and name
    vectors. *)
Fixpoint collect_data_sockets (this : FunctionTreeMFNetworkBuilder)
    (fsockets : list FSocket) (types : list MFDataType) (names : list string)
    : list MFDataType * list string :=
  match fsockets with
  | [] => (types, names)
  | fsocket :: rest =>
      match try_get_data_type this fsocket with
      | Some data_type =>
          collect_data_sockets this rest (types ++ [data_type])
                               (names ++ [fsocket_name fsocket])
      | None => collect_data_sockets this rest types names
      end
  end.

Definition add_dummy (this : FunctionTreeMFNetworkBuilder) (fnode : FNode)
    : option (MFBuilderNode * FunctionTreeMFNetworkBuilder) :=
  let '(input_types, input_names) :=
    collect_data_sockets this (fnode_inputs fnode) [] [] in
  let '(output_types, output_names) :=
    collect_data_sockets this (fnode_outputs fnode) [] [] in
  let '(node, b) :=
    MFNetworkBuilder_add_dummy (m_builder this) (fnode_name fnode)
      input_types output_types input_names output_names in
  this ← map_data_sockets (with_builder this b) fnode node;
  Some (node, this).

(** **** builder.cc, lines 81-119: the diagnostic pass *)





(** **** builder.cc, lines 121-134: [has_data_sockets] *)
Definition has_data_sockets (this : FunctionTreeMFNetworkBuilder)
    (fnode : FNode) : bool :=
  existsb (is_data_socket this) (fnode_inputs fnode)
  || existsb (is_data_socket this) (fnode_outputs fnode).

(** **** builder.cc, lines 136-152: the type registry *)

(** Modelled from the spec: the table lookup itself ([StringMap::lookup],
    and [cpp_type_by_name] of the builder's header) is outside of the
    sources at hand.  It "fails (returns a null/absent result or raises a
    lookup error) if the name is not present in the table". *)
Definition StringMap_lookup {V} (table : gmap string V) (key : string) : option V :=
  table !! key.

Definition cpp_type_by_name (this : FunctionTreeMFNetworkBuilder)
    (type_name : string) : option CPPType :=
  StringMap_lookup (cpp_type_by_type_name (m_function_tree_mappings this)) type_name.

Definition cpp_type_from_property (this : FunctionTreeMFNetworkBuilder)
    (fnode : FNode) (prop_name : string) : option CPPType :=
  let type_name := RNA_string_get_alloc (fnode_rna fnode) prop_name in
  cpp_type_by_name this type_name.

Definition data_type_from_property (this : FunctionTreeMFNetworkBuilder)
    (fnode : FNode) (prop_name : string) : option MFDataType :=
  let type_name := RNA_string_get_alloc (fnode_rna fnode) prop_name in
  StringMap_lookup (data_type_by_type_name (m_function_tree_mappings this)) type_name.

(** *** FNodeMFNetworkBuilder: the per-node view of the builder *)

Record FNodeMFNetworkBuilder := mkFNodeBuilder {
  m_network_builder : FunctionTreeMFNetworkBuilder;
  m_fnode : FNode;
}.

(** **** builder.cc, lines 154-173: [get_list_base_variadic_states] *)

(** The body of the [RNA_BEGIN] ... [RNA_END] iteration over the items of
    the collection property, appending to [states]. *)
Fixpoint variadic_states_loop (mode : BuildMode) (items : list PointerRNA)
    (states : list bool) : option (list bool) :=
  match items with
  | [] => Some states
  | itemptr :: rest =>
      let state := RNA_enum_get itemptr "state" in
      if decide (state = 0%Z) then
        variadic_states_loop mode rest (states ++ [false])
      else if decide (state = 1%Z) then
        variadic_states_loop mode rest (states ++ [true])
      else
        _ ← BLI_assert mode false;
        variadic_states_loop mode rest states
  end.

Definition get_list_base_variadic_states (mode : BuildMode)
    (this : FNodeMFNetworkBuilder) (prop_name : string) : option (list bool) :=
  variadic_states_loop mode (RNA_collection (fnode_rna (m_fnode this)) prop_name) [].

(** **** builder.cc, lines 175-179: [set_matching_fn] *)
Definition set_matching_fn (this : FNodeMFNetworkBuilder) (fn : MultiFunction)
    : option FNodeMFNetworkBuilder :=
  let '(node, nb) := add_function (m_network_builder this) fn in
  nb ← map_data_sockets nb (m_fnode this) node;
  Some (mkFNodeBuilder nb (m_fnode this)).

(** **** builder.cc, lines 181-200: [get_vectorized_function] *)

(** The loop over the property names: each state is read into a buffer of
    five characters and compared with the two enum identifiers. *)
Fixpoint input_is_vectorized_loop (mode : BuildMode) (rna : PointerRNA)
    (is_vectorized_prop_names : list string) (input_is_vectorized : list bool)
    : option (list bool) :=
  match is_vectorized_prop_names with
  | [] => Some input_is_vectorized
  | prop_name :: rest =>
      state ← RNA_string_get 5 rna prop_name;
      _ ← BLI_assert mode (STREQ state "BASE" || STREQ state "LIST");
      let is_vectorized := STREQ state "LIST" in
      input_is_vectorized_loop mode rna rest (input_is_vectorized ++ [is_vectorized])
  end.

Definition contains_true (flags : list bool) : bool := existsb (λ b, b) flags.

Definition get_vectorized_function (mode : BuildMode)
    (this : FNodeMFNetworkBuilder) (base_function : MultiFunction)
    (is_vectorized_prop_names : list string)
    : option (MultiFunction * FNodeMFNetworkBuilder) :=
  input_is_vectorized ←
    input_is_vectorized_loop mode (fnode_rna (m_fnode this))
                             is_vectorized_prop_names [];
  if contains_true input_is_vectorized then
    let '(fn, nb) :=
      construct_fn_SimpleVectorize (m_network_builder this) base_function
                                   input_is_vectorized in
    Some (fn, mkFNodeBuilder nb (m_fnode this))
  else Some (base_function, this).

(** **** builder.cc, lines 202-221: [build] *)

(** The finished network takes over the builder's nodes and sockets. *)
Record MFNetwork := mkNetwork {
  network_nodes : list MFBuilderNode;
  network_sockets : list MFBuilderSocket;
}.

Definition MFNetwork_of_builder (b : MFNetworkBuilder) : MFNetwork :=
  mkNetwork (m_node_by_id b) (m_socket_by_id b).

Definition socket_ids_size (network : MFNetwork) : nat :=
  length (network_sockets network).

Record InlinedTreeMFSocketMap := mkSocketMap {
  map_socket_by_fsocket : gmap nat (list nat);
  map_fsocket_by_socket : list nat;
}.

Record FunctionTreeMFNetwork := mkFunctionTreeMFNetwork {
  network_function_tree : FunctionNodeTree;
  network : MFNetwork;
  socket_map : InlinedTreeMFSocketMap;
}.

(** The inner loop: [fsocket_by_socket[mapped_id] = fsocket_id] for every
    mapped id; an id past the end of the array has no defined result. *)
Fixpoint write_mapped_ids (fsocket_id : nat) (mapped_ids : list nat)
    (fsocket_by_socket : list nat) : option (list nat) :=
  match mapped_ids with
  | [] => Some fsocket_by_socket
  | mapped_id :: rest =>
      if decide (mapped_id < length fsocket_by_socket) then
        write_mapped_ids fsocket_id rest (<[mapped_id := fsocket_id]> fsocket_by_socket)
      else None
  end.

(** The outer loop over [IndexRange(socket_count)]. *)
Fixpoint scan_fsocket_ids (socket_by_fsocket : gmap nat (list nat))
    (fsocket_ids : list nat) (fsocket_by_socket : list nat) : option (list nat) :=
  match fsocket_ids with
  | [] => Some fsocket_by_socket
  | fsocket_id :: rest =>
      let mapped_ids := IdMultiMap_lookup socket_by_fsocket fsocket_id in
      fsocket_by_socket ← write_mapped_ids fsocket_id mapped_ids fsocket_by_socket;
      scan_fsocket_ids socket_by_fsocket rest fsocket_by_socket
  end.

Definition build (this : FunctionTreeMFNetworkBuilder) : option FunctionTreeMFNetwork :=
  let network := MFNetwork_of_builder (m_builder this) in
  fsocket_by_socket ←
    scan_fsocket_ids (m_socket_by_fsocket this)
      (seq 0 (socket_count (m_function_tree this)))
      (replicate (socket_ids_size network) IdMultiMap_UNMAPPED);
  Some (mkFunctionTreeMFNetwork (m_function_tree this) network
          (mkSocketMap (m_socket_by_fsocket this) fsocket_by_socket)).

(** *** Vocabulary of the statements *)

(** The ordered sub-list of data sockets of a socket list. *)
Definition data_sockets (this : FunctionTreeMFNetworkBuilder)
    (fsockets : list FSocket) : list FSocket :=
  filter (λ fsocket, is_data_socket this fsocket) fsockets.

(** The entries of the socket map under a graph socket. *)
Definition mapped_ids (this : FunctionTreeMFNetworkBuilder)
    (fsocket : FSocket) : list nat :=
  IdMultiMap_lookup (m_socket_by_fsocket this) (fsocket_id fsocket).

(** Recording one (graph socket, network socket) pair, as [map_sockets]
    does, on the bare socket map. *)
Definition record_pair (m : gmap nat (list nat))
    (p : FSocket * MFBuilderSocket) : gmap nat (list nat) :=
  IdMultiMap_add m (fsocket_id p.1) (socket_id p.2).

(** The positional pairing the specification describes: the k-th data
    socket of the graph node with the k-th socket of the network node. *)
Definition positional_pairs (this : FunctionTreeMFNetworkBuilder)
    (fsockets : list FSocket) (sockets : list MFBuilderSocket)
    : list (FSocket * MFBuilderSocket) :=
  zip (data_sockets this fsockets) sockets.

Definition fnode_sockets (fnode : FNode) : list FSocket :=
  fnode_inputs fnode ++ fnode_outputs fnode.

(** The graph node declares its sockets with pairwise distinct ids. *)
Definition distinct_socket_ids (fnode : FNode) : Prop :=
  NoDup (fsocket_id <$> fnode_sockets fnode).

(** *** [build] *)

(** Every id recorded under a graph socket id below the socket count names
    a socket of the network. *)
Definition mapped_ids_in_range (this : FunctionTreeMFNetworkBuilder) : Prop :=
  ∀ fsocket_id mapped_id,
    fsocket_id < socket_count (m_function_tree this) →
    mapped_id ∈ IdMultiMap_lookup (m_socket_by_fsocket this) fsocket_id →
    mapped_id < length (m_socket_by_id (m_builder this)).

(** What the scan leaves in a slot that held [init]: every graph socket id
    whose entries contain the slot overwrites what was there. *)
Definition last_writer (m : gmap nat (list nat)) (slot : nat)
    (fsocket_ids : list nat) (init : nat) : nat :=
  foldl (λ acc fsocket_id,
           if bool_decide (slot ∈ IdMultiMap_lookup m fsocket_id)
           then fsocket_id else acc)
        init fsocket_ids.

(** The reading of the reverse table under which the FIRST graph socket of
    the scan wins: a recorded graph socket id maps to the network socket
    and no smaller graph socket id does. *)
Definition reverse_table_first_match (this : FunctionTreeMFNetworkBuilder) : Prop :=
  ∀ net sid r,
    build this = Some net →
    map_fsocket_by_socket (socket_map net) !! sid = Some r →
    (r < socket_count (m_function_tree this) ∧
     sid ∈ IdMultiMap_lookup (m_socket_by_fsocket this) r ∧
     ∀ f, f < r → sid ∉ IdMultiMap_lookup (m_socket_by_fsocket this) f) ∨
    (r = IdMultiMap_UNMAPPED ∧
     ∀ f, f < socket_count (m_function_tree this) →
          sid ∉ IdMultiMap_lookup (m_socket_by_fsocket this) f).

(** *** Variadic states and vectorization *)

Definition item_states (this : FNodeMFNetworkBuilder) (prop_name : string) : list Z :=
  (λ itemptr, RNA_enum_get itemptr "state")
    <$> RNA_collection (fnode_rna (m_fnode this)) prop_name.

Definition valid_state (state : Z) : Prop := state = 0%Z ∨ state = 1%Z.

#[global] Instance valid_state_dec state : Decision (valid_state state).
Proof. unfold valid_state. apply _. Defined.

(** One flag per record in a valid state, in record order. *)
Definition state_flags (states : list Z) : list bool :=
  (λ state, bool_decide (state = 1%Z)) <$> filter valid_state states.

(** The flag [get_vectorized_function] derives from one property. *)
Definition is_list_prop (this : FNodeMFNetworkBuilder) (prop_name : string) : bool :=
  STREQ (RNA_string (fnode_rna (m_fnode this)) prop_name) "LIST".

(** The property holds one of the two enum identifiers. *)
Definition base_or_list (this : FNodeMFNetworkBuilder) (prop_name : string) : Prop :=
  RNA_string (fnode_rna (m_fnode this)) prop_name = "BASE" ∨
  RNA_string (fnode_rna (m_fnode this)) prop_name = "LIST".

(** The states a build can read: a debug build asserts one of the two
    identifiers; a release build takes any string that fits the buffer of
    five characters with its terminator. *)
Definition state_readable (mode : BuildMode) (this : FNodeMFNetworkBuilder)
    (prop_name : string) : Prop :=
  match mode with
  | DEBUG => base_or_list this prop_name
  | NDEBUG => String.length (RNA_string (fnode_rna (m_fnode this)) prop_name) < 5
  end.

(** *** The diagnostic pass and the type invariant *)










(** *** One entry per output socket *)


(** The operations that map the sockets of a graph node. *)
Definition maps_fnode (this : FunctionTreeMFNetworkBuilder) (fnode : FNode)
    (this' : FunctionTreeMFNetworkBuilder) : Prop :=
  (∃ node, map_data_sockets this fnode node = Some this') ∨
  (∃ node, add_dummy this fnode = Some (node, this')) ∨
  (∃ function node, add_function_fnode this function fnode = Some (node, this')) ∨
  (∃ fn, set_matching_fn (mkFNodeBuilder this fnode) fn =
         Some (mkFNodeBuilder this' fnode)).

(** *** Builders made by the operations of the file *)

(** Every id recorded in the socket map is the index of a socket of the
    network under construction. *)
Definition entries_registered (this : FunctionTreeMFNetworkBuilder) : Prop :=
  ∀ key id, id ∈ IdMultiMap_lookup (m_socket_by_fsocket this) key →
            id < length (m_socket_by_id (m_builder this)).

(** The builders a client reaches from the constructor through
    [add_function], [add_dummy], [set_matching_fn] and
    [get_vectorized_function], that is, without handing [map_data_sockets]
    a network node of its own making. *)
Inductive constructed : FunctionTreeMFNetworkBuilder → Prop :=
  | constructed_new tree preprocessed mappings resources :
      constructed (FunctionTreeMFNetworkBuilder_new tree preprocessed mappings resources)
  | constructed_add_function this function :
      constructed this → constructed (add_function this function).2
  | constructed_add_function_fnode this function fnode node this' :
      constructed this →
      add_function_fnode this function fnode = Some (node, this') →
      constructed this'
  | constructed_add_dummy this fnode node this' :
      constructed this →
      add_dummy this fnode = Some (node, this') →
      constructed this'
  | constructed_set_matching_fn this fnode fn per_node' :
      constructed this →
      set_matching_fn (mkFNodeBuilder this fnode) fn = Some per_node' →
      constructed (m_network_builder per_node')
  | constructed_get_vectorized_function mode this fnode base names fn per_node' :
      constructed this →
      get_vectorized_function mode (mkFNodeBuilder this fnode) base names =
        Some (fn, per_node') →
      constructed (m_network_builder per_node').

(** The socket counts a callable offers to a graph node are enough. *)
Definition enough_sockets (this : FunctionTreeMFNetworkBuilder) (fnode : FNode)
    (inputs outputs : nat) : Prop :=
  length (data_sockets this (fnode_inputs fnode)) ≤ inputs ∧
  length (data_sockets this (fnode_outputs fnode)) ≤ outputs.

End builder.

(** ** Scenarios *)

(** A property reader over explicit tables: string properties by name, and
    one collection with an item per listed state; an item is a table that
    lists its own "state" alone. *)
Record TableRNA := mkTableRNA {
  rna_strings : list (string * string);
  rna_states : list Z;
}.

Fixpoint assoc_string (key : string) (table : list (string * string)) : string :=
  match table with
  | [] => ""
  | (k, v) :: rest => if String.eqb k key then v else assoc_string key rest
  end.

#[global] Instance TableRNA_reader : PropertyReader TableRNA := {|
  RNA_string rna prop_name := assoc_string prop_name (rna_strings rna);
  RNA_enum_get rna _ := default 0%Z (head (rna_states rna));
  RNA_collection rna _ := (λ state, mkTableRNA [] [state]) <$> rna_states rna;
|}.

Module scenario.
Definition float : MFDataType (CPPType:=string) := MFSingle "float".

(** The sentinel of the scenarios: a value that is no graph socket id. *)
Definition UNMAPPED : nat := 255.

(** The node of the positional-alignment scenario: inputs a, b, c with b
    not a data socket, and one data output. *)
Definition a : FSocket := mkFSocket 0 "a" true.
Definition b : FSocket := mkFSocket 1 "b" true.
Definition c : FSocket := mkFSocket 2 "c" true.
Definition r : FSocket := mkFSocket 3 "r" false.

Definition rna : TableRNA :=
  mkTableRNA [("use_list__a", "BASE"); ("use_list__c", "LIST");
              ("use_list__x", "NONE")]
             [0%Z; 1%Z; 1%Z].

Definition fnode : FNode := mkFNode "N" [a; b; c] [r] rna.

Definition classifier : PreprocessedVTreeMFData (CPPType:=string) :=
  mkPreprocessed (λ fsocket,
    if String.eqb (fsocket_name fsocket) "b" then None else Some float).

Definition mappings : VTreeMultiFunctionMappings (CPPType:=string) :=
  mkMappings {["float" := "float"]} {["Float" := float]}.

Definition builder0 : FunctionTreeMFNetworkBuilder :=
  FunctionTreeMFNetworkBuilder_new (mkFunctionNodeTree [fnode]) classifier mappings [].

(** A callable whose signature matches the node, and one that does not. *)
Definition fn_add : MultiFunction :=
  MF_Custom "add" [("x", float); ("y", float)] [("sum", float)].

Definition node_add : MFBuilderNode := (add_function builder0 fn_add).1.
Definition builder1 : FunctionTreeMFNetworkBuilder := (add_function builder0 fn_add).2.

(** Two graph nodes mapped onto the same network node. *)
Definition p : FSocket := mkFSocket 0 "p" true.
Definition q : FSocket := mkFSocket 1 "q" true.
Definition fnode_p : FNode := mkFNode "P" [p] [] rna.
Definition fnode_q : FNode := mkFNode "Q" [q] [] rna.
Definition fn_id : MultiFunction := MF_Custom "id" [("x", float)] [].

Definition shared0 : FunctionTreeMFNetworkBuilder :=
  FunctionTreeMFNetworkBuilder_new (mkFunctionNodeTree [fnode_p; fnode_q])
    classifier mappings [].
Definition node_id_fn : MFBuilderNode := (add_function shared0 fn_id).1.
Definition shared1 : FunctionTreeMFNetworkBuilder := (add_function shared0 fn_id).2.
Definition shared2 : FunctionTreeMFNetworkBuilder :=
  default shared1 (map_data_sockets shared1 fnode_p node_id_fn).
Definition shared3 : FunctionTreeMFNetworkBuilder :=
  default shared2 (map_data_sockets shared2 fnode_q node_id_fn).

(** The node of the first scenario made into a dummy node on the fresh
    builder. *)
Definition dummy1 : FunctionTreeMFNetworkBuilder :=
  default builder0 (snd <$> add_dummy builder0 fnode).

(** A graph node with one data output, made into a dummy node twice. *)
Definition o : FSocket := mkFSocket 0 "o" false.

Definition per_node : FNodeMFNetworkBuilder := mkFNodeBuilder builder0 fnode.

End scenario.

End FN.

(** ** The remesh operators (object_remesh.c) *)
Module remesh.

Inductive OperatorStatus := OPERATOR_FINISHED | OPERATOR_CANCELLED.
Inductive ReportType := RPT_INFO | RPT_ERROR.

Section operators.

(** [Float] stands for the C type [float]; of its values the operators only
    ask whether one is at most zero. *)
Context {Float : Type}.

(** The calls the operators make into the host application, with the
    arguments that depend on the run.  The mesh copy an operator may pass is
    recorded by whether the pointer is set. *)
Inductive Call :=
  | CTX_wm_operator_poll_msg_set (msg : string)
  | BKE_report (type : ReportType) (msg : string)
  | RNA_boolean_get (prop_name : string)
  | RNA_int_get (prop_name : string)
  | ED_sculpt_undo_geometry_begin
  | ED_sculpt_undo_geometry_end
  | BKE_mesh_remesh_voxel_to_mesh_nomain (voxel_size : Float)
  | BKE_mesh_remesh_quadriflow_to_mesh_nomain
      (target_faces seed : Z) (preserve_sharp adaptive_scale : bool)
  | BKE_mesh_new_nomain_from_template (totvert : Z)
  | CustomData_copy (totvert : Z)
  | copy_v3_v3 (i : nat)
  | BKE_mesh_nomain_to_mesh
  | BKE_remesh_reproject_paint_mask (obj_mesh_copy : bool)
  | BKE_mesh_free (obj_mesh_copy : bool)
  | BKE_mesh_smooth_flag_set
  | BKE_mesh_batch_cache_dirty_tag
  | DEG_relations_tag_update
  | DEG_id_tag_update
  | WM_event_add_notifier.

(** The host application as the operators see it.  [host_call] is what a
    call does to the state of the application; the other members read that
    state: the active object of the context, its mode, its sculpt session
    and whether its data pointer is set, the answers of the host's own
    predicates, the members of the mesh the operators test, whether the last
    remesher call returned a mesh, and the properties of the running
    operator.  The constants are those of the host's headers. *)
Class Host (World : Type) := {
  host_call : Call → World → World;
  active_object : World → bool;
  ob_mode : World → Z;
  ob_sculpt_bm : World → option bool;
  ob_data : World → bool;
  BKE_object_is_in_editmode : World → bool;
  ED_operator_object_active_editable_mesh : World → bool;
  mesh_remesh_voxel_size : World → Float;
  float_le_zero : Float → bool;
  mesh_flag : World → Z;
  mesh_totvert : World → Z;
  new_mesh : World → bool;
  rna_boolean : World → string → bool;
  rna_int : World → string → Z;
  OB_MODE_SCULPT : Z;
  ME_REMESH_REPROJECT_PAINT_MASK : Z;
  ME_REMESH_SMOOTH_NORMALS : Z;
}.

Context {World : Type} `{!Host World}.

(** An operator body runs on the state of the host, returns its value with
    the state it leaves and the calls it has made, in order; it has no
    result once it dereferences a null pointer. *)
Definition Run (A : Type) : Type := World → option (A * World * list Call).

Definition ret {A} (a : A) : Run A := λ w, Some (a, w, []).

Definition bind {A B} (m : Run A) (k : A → Run B) : Run B :=
  λ w, match m w with
       | None => None
       | Some (a, w1, calls1) =>
           match k a w1 with
           | None => None
           | Some (b, w2, calls2) => Some (b, w2, calls1 ++ calls2)
           end
       end.

#[local] Instance Run_bind : MBind Run := λ A B k m, bind m k.
#[local] Instance Run_ret : MRet Run := λ A a, ret a.

(** A call that acts on the host. *)
Definition call (c : Call) : Run unit := λ w, Some (tt, host_call c w, [c]).

(** A call that only reads the host, or only writes memory the operator
    owns. *)
Definition note (c : Call) : Run unit := λ w, Some (tt, w, [c]).

Definition read {A} (f : World → A) : Run A := λ w, Some (f w, w, []).

Definition undefined {A} : Run A := λ _, None.

Definition when (cond : bool) (m : Run unit) : Run unit :=
  if cond then m else ret tt.

Definition has_flag (flag mask : Z) : bool := negb (Z.eqb (Z.land flag mask) 0).

(** [ob->member] of the active object of the context. *)
Definition active_object_member {A} (member : World → A) : Run A :=
  ob ← read active_object;
  if ob : bool then read member else undefined.

(** [mesh->member] for the local [mesh], which holds [ob->data] as it was
    when the operator read it; [mesh] tells whether that pointer is set. *)
Definition mesh_member {A} (mesh : bool) (member : World → A) : Run A :=
  if mesh then read member else undefined.

Definition RNA_boolean (prop_name : string) : Run bool :=
  _ ← note (RNA_boolean_get prop_name);
  read (λ w, rna_boolean w prop_name).

Definition RNA_int (prop_name : string) : Run Z :=
  _ ← note (RNA_int_get prop_name);
  read (λ w, rna_int w prop_name).

(** **** object_remesh.c, lines 72-86: [object_remesh_poll] *)

(** [ob->mode == OB_MODE_SCULPT && ob->sculpt->bm] *)
Definition sculpt_with_dyntopo : Run bool :=
  mode ← active_object_member ob_mode;
  if bool_decide (mode = OB_MODE_SCULPT) then
    sculpt ← active_object_member ob_sculpt_bm;
    match sculpt with
    | Some bm => ret bm
    | None => undefined
    end
  else ret false.

Definition object_remesh_poll : Run bool :=
  in_editmode ← read BKE_object_is_in_editmode;
  if in_editmode : bool then
    _ ← call (CTX_wm_operator_poll_msg_set
                "The voxel remesher cannot run from edit mode.");
    ret false
  else
    dyntopo ← sculpt_with_dyntopo;
    _ ← when dyntopo
          (call (CTX_wm_operator_poll_msg_set
                   "The voxel remesher cannot run with dyntopo activated."));
    read ED_operator_object_active_editable_mesh.

(** The block both operators run to keep the vertices of the mesh for the
    reprojection of the paint mask: a new mesh from the template, the vertex
    data layers, and one coordinate copy per vertex.  It returns the
    pointer, which is set. *)
Definition copy_mesh_vertices (mesh : bool) : Run bool :=
  totvert ← mesh_member mesh mesh_totvert;
  _ ← call (BKE_mesh_new_nomain_from_template totvert);
  totvert ← mesh_member mesh mesh_totvert;
  _ ← call (CustomData_copy totvert);
  totvert ← mesh_member mesh mesh_totvert;
  _ ← (λ w, Some (tt, w, copy_v3_v3 <$> seq 0 (Z.to_nat totvert))) : Run unit;
  ret true.

(** The four calls that end a finished run. *)
Definition tag_and_notify : Run OperatorStatus :=
  _ ← call BKE_mesh_batch_cache_dirty_tag;
  _ ← call DEG_relations_tag_update;
  _ ← call DEG_id_tag_update;
  _ ← call WM_event_add_notifier;
  ret OPERATOR_FINISHED.

(** **** object_remesh.c, lines 88-142: [voxel_remesh_exec] *)
Definition voxel_remesh_exec : Run OperatorStatus :=
  mesh ← active_object_member ob_data;
  voxel_size ← mesh_member mesh mesh_remesh_voxel_size;
  if float_le_zero voxel_size then
    _ ← call (BKE_report RPT_ERROR
                "Voxel remesher cannot run with a voxel size of 0.0.");
    ret OPERATOR_CANCELLED
  else
    mode ← read ob_mode;
    _ ← when (bool_decide (mode = OB_MODE_SCULPT))
             (call ED_sculpt_undo_geometry_begin);
    voxel_size ← mesh_member mesh mesh_remesh_voxel_size;
    _ ← call (BKE_mesh_remesh_voxel_to_mesh_nomain voxel_size);
    remeshed ← read new_mesh;
    if negb remeshed then ret OPERATOR_CANCELLED
    else
      flag ← mesh_member mesh mesh_flag;
      obj_mesh_copy ← (if has_flag flag ME_REMESH_REPROJECT_PAINT_MASK
                       then copy_mesh_vertices mesh else ret false);
      _ ← call BKE_mesh_nomain_to_mesh;
      flag ← mesh_member mesh mesh_flag;
      _ ← when (has_flag flag ME_REMESH_REPROJECT_PAINT_MASK)
             (_ ← call (BKE_remesh_reproject_paint_mask obj_mesh_copy);
              call (BKE_mesh_free obj_mesh_copy));
      flag ← mesh_member mesh mesh_flag;
      _ ← when (has_flag flag ME_REMESH_SMOOTH_NORMALS)
               (call BKE_mesh_smooth_flag_set);
      mode ← read ob_mode;
      _ ← when (bool_decide (mode = OB_MODE_SCULPT))
               (call ED_sculpt_undo_geometry_end);
      tag_and_notify.

(** **** object_remesh.c, lines 160-226: [quadriflow_remesh_exec] *)
Definition quadriflow_remesh_exec : Run OperatorStatus :=
  is_frozen ← RNA_boolean "use_freeze";
  if is_frozen : bool then
    _ ← call (BKE_report RPT_INFO
                "Operator is frozen, changes to its settings won't take effect until you unfreeze it");
    ret OPERATOR_FINISHED
  else
    mesh ← active_object_member ob_data;
    mode ← read ob_mode;
    _ ← when (bool_decide (mode = OB_MODE_SCULPT))
             (call ED_sculpt_undo_geometry_begin);
    target_faces ← RNA_int "target_faces";
    seed ← RNA_int "seed";
    preserve_sharp ← RNA_boolean "preserve_sharp";
    adaptive_scale ← RNA_boolean "adaptive_scale";
    proj_paint_mask ← RNA_boolean "proj_paint_mask";
    smooth_normals ← RNA_boolean "smooth_normals";
    _ ← call (BKE_mesh_remesh_quadriflow_to_mesh_nomain
                target_faces seed preserve_sharp adaptive_scale);
    remeshed ← read new_mesh;
    if negb remeshed then ret OPERATOR_CANCELLED
    else
      obj_mesh_copy ← (if proj_paint_mask : bool
                       then copy_mesh_vertices mesh else ret false);
      _ ← call BKE_mesh_nomain_to_mesh;
      _ ← when proj_paint_mask
             (_ ← call (BKE_remesh_reproject_paint_mask obj_mesh_copy);
              call (BKE_mesh_free obj_mesh_copy));
      _ ← when smooth_normals (call BKE_mesh_smooth_flag_set);
      mode ← read ob_mode;
      _ ← when (bool_decide (mode = OB_MODE_SCULPT))
               (call ED_sculpt_undo_geometry_end);
      tag_and_notify.

End operators.

(** **** object_remesh.c, lines 144-158 and 228-284: the operator types *)

(** The callbacks an operator type of this file can point to. *)
Inductive Callback :=
  | cb_object_remesh_poll
  | cb_voxel_remesh_exec
  | cb_quadriflow_remesh_exec
  | cb_WM_operator_props_popup_confirm.

(** A property definition, as [RNA_def_boolean] and [RNA_def_int] receive
    it. *)
Inductive PropertyRNA :=
  | RNA_def_boolean (identifier : string) (default : bool)
      (ui_name ui_description : string)
  | RNA_def_int (identifier : string) (default hardmin hardmax : Z)
      (ui_name ui_description : string) (softmin softmax : Z).

Record wmOperatorType := mkOperatorType {
  ot_name : string;
  ot_description : string;
  ot_idname : string;
  ot_poll : option Callback;
  ot_invoke : option Callback;
  ot_exec : option Callback;
  ot_flag : Z;
  ot_srna : list PropertyRNA;
}.

Definition INT_MAX : Z := 2147483647.

Section registration.

(** The operator type flags are constants of the host's headers. *)
Variables OPTYPE_REGISTER OPTYPE_UNDO : Z.

Definition OBJECT_OT_voxel_remesh (ot : wmOperatorType) : wmOperatorType :=
  mkOperatorType
    "Voxel Remesh"
    "Calculates a new manifold mesh based on the volume of the current mesh. All data layers will be lost"
    "OBJECT_OT_voxel_remesh"
    (Some cb_object_remesh_poll)
    (ot_invoke ot)
    (Some cb_voxel_remesh_exec)
    (Z.lor OPTYPE_REGISTER OPTYPE_UNDO)
    (ot_srna ot).

Definition OBJECT_OT_quadriflow_remesh (ot : wmOperatorType) : wmOperatorType :=
  mkOperatorType
    "QuadriFlow Remesh"
    "Calculates a new quad based mesh using the surface data of the current mesh. All data layers will be lost"
    "OBJECT_OT_quadriflow_remesh"
    (Some cb_object_remesh_poll)
    (Some cb_WM_operator_props_popup_confirm)
    (Some cb_quadriflow_remesh_exec)
    (Z.lor OPTYPE_REGISTER OPTYPE_UNDO)
    (ot_srna ot ++
     [RNA_def_boolean "preserve_sharp" false "Preserve sharp"
        "Try to preserve sharp features on the mesh";
      RNA_def_boolean "adaptive_scale" false "Adaptive scale"
        "Use adaptive scale when remeshing";
      RNA_def_boolean "proj_paint_mask" false "Preserve paint mask"
        "Reproject the paint mask onto the new mesh";
      RNA_def_boolean "smooth_normals" false "Smooth normals"
        "Set the output mesh normals to smooth";
      RNA_def_int "target_faces" 0 0 INT_MAX "Output faces"
        "The amount of faces the solver should try to remesh with.This is just a guideline and not a hard limit.Zero output faces will set the face amount to auto"
        0 255;
      RNA_def_int "seed" 0 0 INT_MAX "Seed"
        "Random seed to you with the solver" 0 255;
      RNA_def_boolean "use_freeze" false "Freeze Operator"
        "Prevent changes to settings to re-run the operator, handy to change several things at once with heavy geometry"]).

End registration.

(** The property a call reads, with its kind (true for a boolean). *)
Definition property_read {Float} (c : Call (Float:=Float)) : option (string * bool) :=
  match c with
  | RNA_boolean_get prop_name => Some (prop_name, true)
  | RNA_int_get prop_name => Some (prop_name, false)
  | _ => None
  end.

(** The property a definition declares, with its kind. *)
Definition property_declared (prop : PropertyRNA) : string * bool :=
  match prop with
  | RNA_def_boolean identifier _ _ _ => (identifier, true)
  | RNA_def_int identifier _ _ _ _ _ _ _ => (identifier, false)
  end.

(** The host does not change the mode of the active object, or the flag of
    its mesh, behind the back of the operator. *)
Definition mode_stable {Float World} `{!Host (Float:=Float) World} : Prop :=
  ∀ c w, ob_mode (host_call c w) = ob_mode w.
Definition flag_stable {Float World} `{!Host (Float:=Float) World} : Prop :=
  ∀ c w, mesh_flag (host_call c w) = mesh_flag w.

(** *** An example host

    A host whose state is the handful of values the operators read.  The
    remesher calls set whether a mesh came back; no other call changes the
    state.  The voxel size is counted in thousandths. *)
Module example.

Record World := mkWorld {
  has_object : bool;
  mode : Z;
  sculpt_bm : option bool;
  has_data : bool;
  in_editmode : bool;
  editable : bool;
  voxel_size : Z;
  flag : Z;
  totvert : Z;
  remesher_succeeds : bool;
  remeshed : bool;
  booleans : list string;
  ints : list (string * Z);
}.

Definition with_remeshed (w : World) (b : bool) : World :=
  mkWorld (has_object w) (mode w) (sculpt_bm w) (has_data w) (in_editmode w)
    (editable w)
    (voxel_size w) (flag w) (totvert w) (remesher_succeeds w) b
    (booleans w) (ints w).

Definition example_call (c : Call (Float:=Z)) (w : World) : World :=
  match c with
  | BKE_mesh_remesh_voxel_to_mesh_nomain _
  | BKE_mesh_remesh_quadriflow_to_mesh_nomain _ _ _ _ =>
      with_remeshed w (remesher_succeeds w)
  | _ => w
  end.

#[export] Instance example_Host : Host (Float:=Z) World := {|
  host_call := example_call;
  active_object := has_object;
  ob_mode := mode;
  ob_sculpt_bm := sculpt_bm;
  ob_data := has_data;
  BKE_object_is_in_editmode := in_editmode;
  ED_operator_object_active_editable_mesh := editable;
  mesh_remesh_voxel_size := voxel_size;
  float_le_zero := λ size, Z.leb size 0;
  mesh_flag := flag;
  mesh_totvert := totvert;
  new_mesh := remeshed;
  rna_boolean := λ w prop_name, bool_decide (prop_name ∈ booleans w);
  rna_int := λ w prop_name,
    from_option snd 0%Z (List.find (λ kv, String.eqb kv.1 prop_name) (ints w));
  OB_MODE_SCULPT := 2;
  ME_REMESH_REPROJECT_PAINT_MASK := 4096;
  ME_REMESH_SMOOTH_NORMALS := 2048;
|}.

(** An object in sculpt mode with dyntopo on, a mesh of three vertices with
    both remesh flags set, and a remesher that returns a mesh. *)
Definition sculpting : World :=
  mkWorld true 2 (Some true) true false true 100 6144 3 true false
    ["proj_paint_mask"] [("target_faces", 500%Z)].

(** The same, with a remesher that returns no mesh. *)
Definition failing : World :=
  mkWorld true 2 (Some true) true false true 100 6144 3 false false
    ["proj_paint_mask"] [("target_faces", 500%Z)].

(** The same as the first, with an object that has no data. *)
Definition without_data : World :=
  mkWorld true 2 (Some true) false false true 100 6144 3 true false
    ["proj_paint_mask"] [("target_faces", 500%Z)].

(** An object in object mode whose mesh has a voxel size of zero. *)
Definition zero_size : World :=
  mkWorld true 0 None true false true 0 0 3 true false [] [].

(** No active object, and the operator frozen. *)
Definition frozen : World :=
  mkWorld false 0 None false false false 0 0 0 true false ["use_freeze"] [].

(** An object in edit mode. *)
Definition editing : World :=
  mkWorld true 1 None true true true 100 0 3 true false [] [].

End example.

End remesh.

(** * Properties of the BVM function lookups *)

Section function_bvm_facts.
Import blenvm.
Context {TypeDesc StackIndex : Type}.
Implicit Types (f : FunctionBVM (TypeDesc:=TypeDesc) (StackIndex:=StackIndex)).
Implicit Types (l : list (Argument (TypeDesc:=TypeDesc) (StackIndex:=StackIndex))).
Implicit Types (a : Argument (TypeDesc:=TypeDesc) (StackIndex:=StackIndex)).

Lemma scan_by_name_Some l key a :
  scan_by_name l key = Some a ↔ first_named l key a.
Proof.
  induction l as [|b l IH]; simpl.
  - split; [done|]. intros (before & after & Hl & _).
    by destruct before.
  - destruct (String.eqb_spec (name b) key) as [Heq|Hne].
    + split.
      * intros [= <-]. by exists [], l.
      * intros ([|c before] & after & Hl & Hn & Hall); simplify_eq/=; [done|].
        by inversion Hall.
    + rewrite IH. split.
      * intros (before & after & -> & Hn & Hall).
        exists (b :: before), after. split_and!; [done..|]. by constructor.
      * intros ([|c before] & after & Hl & Hn & Hall); simplify_eq/=.
        exists before, after. split_and!; [done..|]. by inversion Hall.
Qed.

Lemma scan_by_name_None l key :
  scan_by_name l key = None ↔ Forall (λ b, name b ≠ key) l.
Proof.
  induction l as [|b l IH]; simpl; [by split|].
  destruct (String.eqb_spec (name b) key) as [Heq|Hne].
  - split; [done|]. by inversion 1.
  - rewrite IH. split; [by constructor|by inversion 1].
Qed.

(** An entry pushed under a name that is not yet taken is the one found. *)
Lemma argument_add_argument_fresh f td key off :
  argument f key = None →
  argument (add_argument f td key off) key = Some (mkArgument td key off).
Proof.
  unfold argument. simpl. intros Hnone%scan_by_name_None.
  apply scan_by_name_Some. by exists (m_arguments f), [].
Qed.

(** C10.  [argument(name)] and [return_value(name)] return the first stored
    entry whose name equals the given string.  When no entry carries the
    name the loop falls through to the end iterator: the call has a defined
    result exactly when some entry with that name is stored. *)
Theorem C10_name_lookup_first_match_or_end (f : FunctionBVM) (key : string) :
  (∀ a, argument f key = Some a ↔ first_named (m_arguments f) key a) ∧
  (∀ a, return_value f key = Some a ↔ first_named (m_return_values f) key a) ∧
  (is_Some (argument f key) ↔ ∃ a, a ∈ m_arguments f ∧ name a = key) ∧
  (is_Some (return_value f key) ↔ ∃ a, a ∈ m_return_values f ∧ name a = key).
Proof.
  assert (∀ l, is_Some (scan_by_name l key) ↔ ∃ a, a ∈ l ∧ name a = key) as Hdef.
  { induction l as [|b l IH]; simpl.
    - split; [by intros []|]. by intros (a & Hin%elem_of_nil & _).
    - destruct (String.eqb_spec (name b) key) as [Heq|Hne].
      + split; [|done]. intros _. exists b. split; [left|done].
      + rewrite IH. split.
        * intros (a & Hin & Hn). exists a. split; [by right|done].
        * intros (a & [->|Hin]%elem_of_cons & Hn); [done|by exists a]. }
  repeat split; try apply scan_by_name_Some; apply Hdef.
Qed.

End function_bvm_facts.

(** * Properties of the network builder *)

Section builder_facts.
Import FN.
Context {CPPType : Type} `{!EqDecision CPPType}.
Context {PointerRNA : Type} `{!PropertyReader PointerRNA}.
Variable IdMultiMap_UNMAPPED : nat.
Implicit Types
  (lookup : FunctionTreeMFNetworkBuilder (CPPType:=CPPType) (PointerRNA:=PointerRNA) →
            FSocket → option (MFBuilderSocket (CPPType:=CPPType))).
Implicit Types
  (this : FunctionTreeMFNetworkBuilder (CPPType:=CPPType) (PointerRNA:=PointerRNA)).
Implicit Types (fnode : FNode (PointerRNA:=PointerRNA)).
Implicit Types (node : MFBuilderNode (CPPType:=CPPType)).
Implicit Types (function fn base : MultiFunction (CPPType:=CPPType)).
Implicit Types (socket : MFBuilderSocket (CPPType:=CPPType)).
Implicit Types (sockets : list (MFBuilderSocket (CPPType:=CPPType))).
Implicit Types (pairs : list (FSocket * MFBuilderSocket (CPPType:=CPPType))).
Implicit Types (params ins outs : list (string * MFDataType (CPPType:=CPPType))).
Implicit Types (net : FunctionTreeMFNetwork (CPPType:=CPPType) (PointerRNA:=PointerRNA)).

(** *** Basic facts *)

Lemma IdMultiMap_lookup_add m key value key' :
  IdMultiMap_lookup (IdMultiMap_add m key value) key' =
  if decide (key = key') then IdMultiMap_lookup m key ++ [value]
  else IdMultiMap_lookup m key'.
Proof.
  unfold IdMultiMap_add, IdMultiMap_lookup at 1.
  rewrite lookup_insert. by case_decide.
Qed.

Lemma IdMultiMap_lookup_empty key : IdMultiMap_lookup ∅ key = [].
Proof. unfold IdMultiMap_lookup. by rewrite lookup_empty. Qed.

Lemma lookup_foldl_record_pair pairs : ∀ m key,
  IdMultiMap_lookup (foldl record_pair m pairs) key =
  IdMultiMap_lookup m key ++
    ((socket_id ∘ snd) <$> filter (λ p, fsocket_id p.1 = key) pairs).
Proof.
  induction pairs as [|p pairs IH]; intros m key; simpl.
  - by rewrite app_nil_r.
  - rewrite IH. unfold record_pair. rewrite IdMultiMap_lookup_add.
    rewrite filter_cons. case_decide as Hk.
    + subst key. by rewrite <-app_assoc.
    + done.
Qed.

Lemma is_data_socket_spec this fsocket :
  is_data_socket this fsocket ↔ is_Some (try_get_data_type this fsocket).
Proof. unfold is_data_socket. apply bool_decide_spec. Qed.

Lemma is_data_socket_false this fsocket :
  ¬ is_data_socket this fsocket ↔ try_get_data_type this fsocket = None.
Proof. rewrite is_data_socket_spec. symmetry. apply eq_None_not_Some. Qed.

(** The classifier only reads the preprocessed data, which no operation of
    the builder writes. *)
Lemma data_sockets_same_classifier this this' fsockets :
  m_preprocessed_function_tree_data this' = m_preprocessed_function_tree_data this →
  data_sockets this' fsockets = data_sockets this fsockets.
Proof.
  intros Hpre. unfold data_sockets, is_data_socket, try_get_data_type.
  by rewrite Hpre.
Qed.

Lemma data_sockets_cons this fsocket rest :
  data_sockets this (fsocket :: rest) =
  if is_data_socket this fsocket then fsocket :: data_sockets this rest
  else data_sockets this rest.
Proof.
  unfold data_sockets. rewrite filter_cons.
  destruct (is_data_socket this fsocket); by simpl.
Qed.

Lemma with_socket_by_fsocket_twice this m m' :
  with_socket_by_fsocket (with_socket_by_fsocket this m) m' =
  with_socket_by_fsocket this m'.
Proof. done. Qed.

Lemma with_socket_by_fsocket_same this :
  with_socket_by_fsocket this (m_socket_by_fsocket this) = this.
Proof. by destruct this. Qed.

(** The counter loop computes the positional pairing: it succeeds exactly
    when the network node has a socket for every data socket left, and
    then it has recorded the pairs of the zip, in order. *)
Lemma map_data_sockets_loop_spec fsockets : ∀ this sockets data_count,
  data_count ≤ length sockets →
  map_data_sockets_loop this fsockets sockets data_count =
  if decide (data_count + length (data_sockets this fsockets) ≤ length sockets)
  then Some (with_socket_by_fsocket this
               (foldl record_pair (m_socket_by_fsocket this)
                  (positional_pairs this fsockets (drop data_count sockets))))
  else None.
Proof.
  unfold positional_pairs.
  induction fsockets as [|fsocket rest IH]; intros this sockets k Hk0; simpl.
  - rewrite decide_True by (cbn; lia).
    by rewrite with_socket_by_fsocket_same.
  - rewrite data_sockets_cons.
    destruct (is_data_socket this fsocket) eqn:Hdata.
    + destruct (sockets !! k) as [socket|] eqn:Hk; simpl.
      * pose proof (lookup_lt_Some _ _ _ Hk) as Hlt.
        rewrite IH by lia.
        rewrite (data_sockets_same_classifier this) by done.
        rewrite (drop_S _ _ _ Hk). simpl.
        case_decide.
        -- by rewrite decide_True by lia.
        -- by rewrite decide_False by lia.
      * apply lookup_ge_None in Hk. by rewrite decide_False by lia.
    +         by apply IH.
Qed.

Lemma map_data_sockets_spec this fnode node :
  map_data_sockets this fnode node =
  if decide (length (data_sockets this (fnode_inputs fnode)) ≤ length (node_inputs node) ∧
             length (data_sockets this (fnode_outputs fnode)) ≤ length (node_outputs node))
  then Some (with_socket_by_fsocket this
               (foldl record_pair (m_socket_by_fsocket this)
                  (positional_pairs this (fnode_inputs fnode) (node_inputs node) ++
                   positional_pairs this (fnode_outputs fnode) (node_outputs node))))
  else None.
Proof.
  unfold map_data_sockets.
  rewrite map_data_sockets_loop_spec by lia. rewrite drop_0. simpl.
  destruct (decide (length (data_sockets this (fnode_inputs fnode)) ≤ _)) as [Hin|Hin];
    simpl; [|by rewrite decide_False by tauto].
  rewrite map_data_sockets_loop_spec by lia. rewrite drop_0. simpl.
  unfold positional_pairs.
  rewrite (data_sockets_same_classifier this) by done.
  case_decide.
  - rewrite decide_True by done. by rewrite foldl_app.
  - by rewrite decide_False by tauto.
Qed.

(** Neither the network nor any member other than the socket map is
    written by [map_data_sockets]. *)
Lemma map_data_sockets_frame this fnode node this' :
  map_data_sockets this fnode node = Some this' →
  this' = with_socket_by_fsocket this (m_socket_by_fsocket this').
Proof. rewrite map_data_sockets_spec. case_decide; by intros [= <-]. Qed.

Section keyed_filter.
Context {A K : Type} `{!EqDecision K} (f : A → K).

Lemma filter_key_absent (l : list A) (key : K) :
  key ∉ f <$> l → filter (λ y, f y = key) l = [].
Proof.
  induction l as [|y l IH]; [done|]. rewrite fmap_cons, not_elem_of_cons.
  intros [Hne Hnin]. rewrite filter_cons, decide_False by done. by apply IH.
Qed.

Lemma filter_key_NoDup (l : list A) (i : nat) (x : A) :
  NoDup (f <$> l) → l !! i = Some x → filter (λ y, f y = f x) l = [x].
Proof.
  revert i. induction l as [|y l IH]; intros i; [done|].
  rewrite fmap_cons, NoDup_cons. intros [Hnin Hnd] Hi.
  rewrite filter_cons. destruct i as [|i]; simpl in Hi.
  - injection Hi as ->. rewrite decide_True by done.
    by rewrite filter_key_absent.
  - rewrite decide_False; [by eapply IH|].
    intros Heq. apply Hnin. rewrite Heq.
    apply list_elem_of_fmap_2. by eapply list_elem_of_lookup_2.
Qed.
End keyed_filter.

Lemma positional_pairs_keys this fnode node :
  distinct_socket_ids fnode →
  length (data_sockets this (fnode_inputs fnode)) ≤ length (node_inputs node) →
  length (data_sockets this (fnode_outputs fnode)) ≤ length (node_outputs node) →
  NoDup ((fsocket_id ∘ fst) <$>
           (positional_pairs this (fnode_inputs fnode) (node_inputs node) ++
            positional_pairs this (fnode_outputs fnode) (node_outputs node))).
Proof.
  intros Hnd Hin Hout. unfold positional_pairs.
  rewrite list_fmap_compose, fmap_app, !fst_zip by done.
  unfold data_sockets. rewrite <-filter_app.
  eapply sublist_NoDup; [exact Hnd|].
  apply fmap_sublist, sublist_filter.
Qed.

(** The entries a graph socket gains are those of the pairs it occurs in. *)
Lemma mapped_ids_after_pairs this pairs fsocket :
  mapped_ids (with_socket_by_fsocket this
                (foldl record_pair (m_socket_by_fsocket this) pairs)) fsocket =
  mapped_ids this fsocket ++
    ((socket_id ∘ snd) <$>
       filter (λ p, (fsocket_id ∘ fst) p = fsocket_id fsocket) pairs).
Proof. unfold mapped_ids. simpl. apply lookup_foldl_record_pair. Qed.

(** The entries of the socket map after a successful [map_data_sockets]:
    the k-th data socket gains the id of the k-th network socket, and a
    graph socket whose id is not that of a data socket of the node keeps
    the entries it had. *)
Lemma map_data_sockets_entries this fnode node this' :
  distinct_socket_ids fnode →
  map_data_sockets this fnode node = Some this' →
  (∀ k fsocket socket,
     data_sockets this (fnode_inputs fnode) !! k = Some fsocket →
     node_inputs node !! k = Some socket →
     mapped_ids this' fsocket = mapped_ids this fsocket ++ [socket_id socket]) ∧
  (∀ k fsocket socket,
     data_sockets this (fnode_outputs fnode) !! k = Some fsocket →
     node_outputs node !! k = Some socket →
     mapped_ids this' fsocket = mapped_ids this fsocket ++ [socket_id socket]) ∧
  (∀ fsocket,
     fsocket_id fsocket ∉
       fsocket_id <$> (data_sockets this (fnode_inputs fnode) ++
                       data_sockets this (fnode_outputs fnode)) →
     mapped_ids this' fsocket = mapped_ids this fsocket).
Proof.
  intros Hnd. rewrite map_data_sockets_spec.
  case_decide as Hlen; [|done]. destruct Hlen as [Hin Hout]. intros [= <-].
  pose proof (positional_pairs_keys this fnode node Hnd Hin Hout) as Hkeys.
  unfold positional_pairs in *. split_and!.
  - intros k fsocket socket Hf Hs. rewrite mapped_ids_after_pairs.
    f_equal.
    erewrite (filter_key_NoDup (fsocket_id ∘ fst) _ k (fsocket, socket)); [done..|].
    apply lookup_app_l_Some. by apply lookup_zip_Some.
  - intros k fsocket socket Hf Hs. rewrite mapped_ids_after_pairs.
    f_equal.
    erewrite (filter_key_NoDup (fsocket_id ∘ fst) _
                (length (zip (data_sockets this (fnode_inputs fnode)) (node_inputs node)) + k)
                (fsocket, socket)); [done..|].
    rewrite lookup_app_r by lia.
    replace (_ + k - _) with k by lia. by apply lookup_zip_Some.
  - intros fsocket Hfresh. rewrite mapped_ids_after_pairs.
    rewrite filter_key_absent; [by rewrite app_nil_r|].
    intros Hin'. apply Hfresh.
    by rewrite list_fmap_compose, fmap_app, !fst_zip in Hin' by done.
Qed.

(** C1.  [map_data_sockets] pairs the k-th data input socket of the graph
    node (inputs walked in order, non-data sockets skipped) with the k-th
    input socket of the network node, and the k-th data output socket with
    the k-th output socket: the call records the pairs of the positional
    zip, in order, and writes nothing else; the k-th data socket gains
    exactly the id of the k-th network socket, so a non-data socket never
    moves a data socket to another index. *)
Theorem C1_map_data_sockets_positional this fnode node :
  distinct_socket_ids fnode →
  length (data_sockets this (fnode_inputs fnode)) ≤ length (node_inputs node) →
  length (data_sockets this (fnode_outputs fnode)) ≤ length (node_outputs node) →
  ∃ this',
    map_data_sockets this fnode node = Some this' ∧
    this' = with_socket_by_fsocket this
              (foldl record_pair (m_socket_by_fsocket this)
                 (zip (data_sockets this (fnode_inputs fnode)) (node_inputs node) ++
                  zip (data_sockets this (fnode_outputs fnode)) (node_outputs node))) ∧
    (∀ k fsocket socket,
       data_sockets this (fnode_inputs fnode) !! k = Some fsocket →
       node_inputs node !! k = Some socket →
       mapped_ids this' fsocket = mapped_ids this fsocket ++ [socket_id socket]) ∧
    (∀ k fsocket socket,
       data_sockets this (fnode_outputs fnode) !! k = Some fsocket →
       node_outputs node !! k = Some socket →
       mapped_ids this' fsocket = mapped_ids this fsocket ++ [socket_id socket]).
Proof.
  intros Hnd Hin Hout.
  assert (map_data_sockets this fnode node =
          Some (with_socket_by_fsocket this
                  (foldl record_pair (m_socket_by_fsocket this)
                     (zip (data_sockets this (fnode_inputs fnode)) (node_inputs node) ++
                      zip (data_sockets this (fnode_outputs fnode)) (node_outputs node)))))
    as Hcall.
  { rewrite map_data_sockets_spec. by rewrite decide_True by done. }
  eexists. split; [exact Hcall|]. split; [done|].
  destruct (map_data_sockets_entries _ _ _ _ Hnd Hcall) as (Hi & Ho & _).
  by split.
Qed.

(** *** [add_function] *)

(** C7.  The single-argument [add_function] inserts a new function node
    wrapping the callable and performs no socket mapping: the socket map
    and every other member but the network are left as they were, and the
    nodes and sockets already in the network keep their places, the new
    node and its sockets being appended.  The two-argument overload is the
    single-argument one followed by [map_data_sockets] against the graph
    node. *)
Theorem C7_add_function_no_socket_mapping this function :
  ∃ node this',
    add_function this function = (node, this') ∧
    node_function node = Some function ∧
    m_socket_by_fsocket this' = m_socket_by_fsocket this ∧
    this' = with_builder this (m_builder this') ∧
    m_node_by_id (m_builder this') = m_node_by_id (m_builder this) ++ [node] ∧
    m_socket_by_id (m_builder this') =
      m_socket_by_id (m_builder this) ++ node_inputs node ++ node_outputs node ∧
    ∀ fnode,
      add_function_fnode this function fnode =
      (this'' ← map_data_sockets this' fnode node; Some (node, this'')).
Proof.
  unfold add_function_fnode, add_function, MFNetworkBuilder_add_function,
    MFNetworkBuilder_add_node.
  do 2 eexists. split; [done|]. by split_and!.
Qed.

(** *** [add_dummy] *)

Lemma collect_data_sockets_spec this fsockets : ∀ types names,
  collect_data_sockets this fsockets types names =
  (types ++ omap (try_get_data_type this) fsockets,
   names ++ (fsocket_name <$> data_sockets this fsockets)).
Proof.
  induction fsockets as [|fsocket rest IH]; intros types names; simpl.
  - by rewrite !app_nil_r.
  - rewrite data_sockets_cons. unfold is_data_socket.
    destruct (try_get_data_type this fsocket) as [ty|] eqn:Hty; simpl.
    + rewrite IH. by rewrite <-!app_assoc.
    + apply IH.
Qed.

Lemma length_data_types this fsockets :
  length (omap (try_get_data_type this) fsockets) =
  length (data_sockets this fsockets).
Proof.
  induction fsockets as [|fsocket rest IH]; [done|]. simpl.
  rewrite data_sockets_cons. unfold is_data_socket.
  destruct (try_get_data_type this fsocket) as [ty|] eqn:Hty; simpl.
  - f_equal. exact IH.
  - exact IH.
Qed.

Lemma make_sockets_types owner is_output first params :
  socket_data_type <$> make_sockets owner is_output first params = params.*2.
Proof.
  unfold make_sockets. rewrite fmap_imap. apply (imap_const snd).
Qed.

Lemma make_sockets_names owner is_output first params :
  socket_name <$> make_sockets owner is_output first params = params.*1.
Proof.
  unfold make_sockets. rewrite fmap_imap. apply (imap_const fst).
Qed.

Lemma length_make_sockets owner is_output first params :
  length (make_sockets owner is_output first params) = length params.
Proof. apply length_imap. Qed.

Lemma lookup_make_sockets owner is_output first params i s :
  make_sockets owner is_output first params !! i = Some s →
  socket_id s = first + i ∧ socket_is_output s = is_output ∧
  socket_index s = i ∧ socket_node s = owner ∧
  params !! i = Some (socket_name s, socket_data_type s).
Proof.
  unfold make_sockets. rewrite list_lookup_imap.
  destruct (params !! i) as [[n ty]|]; simpl; [|done].
  by intros [= <-].
Qed.

(** *** [build] *)

Lemma write_mapped_ids_Some fsocket_id mapped : ∀ table,
  Forall (λ id, id < length table) mapped →
  ∃ table',
    write_mapped_ids fsocket_id mapped table = Some table' ∧
    length table' = length table ∧
    ∀ slot, table' !! slot =
            if bool_decide (slot ∈ mapped) then Some fsocket_id else table !! slot.
Proof.
  induction mapped as [|id mapped IH]; intros table Hall;
    cbn [write_mapped_ids].
  - exists table. split_and!; [done..|]. intros slot.
    by rewrite bool_decide_false by apply not_elem_of_nil.
  - apply Forall_cons in Hall as [Hid Hall].
    rewrite decide_True by done.
    destruct (IH (<[id:=fsocket_id]> table)) as (table' & Hw & Hlen & Hslots).
    { by rewrite length_insert. }
    exists table'. rewrite length_insert in Hlen. split_and!; [done..|].
    intros slot. rewrite Hslots.
    destruct (decide (slot ∈ mapped)) as [Hin|Hnin].
    + rewrite !bool_decide_true; [done| |done]. by right.
    + rewrite (bool_decide_false _ Hnin).
      destruct (decide (slot = id)) as [->|Hne].
      * rewrite bool_decide_true by left.
        by rewrite list_lookup_insert_eq.
      * rewrite bool_decide_false by (rewrite elem_of_cons; tauto).
        by rewrite list_lookup_insert_ne.
Qed.

Lemma write_mapped_ids_None fsocket_id mapped : ∀ table,
  ¬ Forall (λ id, id < length table) mapped →
  write_mapped_ids fsocket_id mapped table = None.
Proof.
  induction mapped as [|id mapped IH]; intros table Hall; simpl.
  - by destruct Hall.
  - case_decide as Hid; [|done]. apply IH. rewrite length_insert.
    intros Hrest. apply Hall. by constructor.
Qed.

Lemma scan_fsocket_ids_Some m fsocket_ids : ∀ table,
  Forall (λ f, Forall (λ id, id < length table) (IdMultiMap_lookup m f)) fsocket_ids →
  ∃ table',
    scan_fsocket_ids m fsocket_ids table = Some table' ∧
    length table' = length table ∧
    ∀ slot, table' !! slot = last_writer m slot fsocket_ids <$> table !! slot.
Proof.
  induction fsocket_ids as [|f rest IH]; intros table Hall; simpl.
  - exists table. split_and!; [done..|]. intros slot.
    unfold last_writer. simpl. by destruct (table !! slot).
  - apply Forall_cons in Hall as [Hf Hall].
    destruct (write_mapped_ids_Some f _ _ Hf) as (table1 & -> & Hlen1 & Hslots1).
    simpl. destruct (IH table1) as (table' & Hscan & Hlen & Hslots).
    { by rewrite Hlen1. }
    exists table'. split_and!; [done|congruence|].
    intros slot. rewrite Hslots, Hslots1. unfold last_writer. simpl.
    case_bool_decide as Hin; [|done].
    destruct (table !! slot) as [x|] eqn:Hslot; [done|].
    (* a written slot lies inside the table *)
    apply lookup_ge_None in Hslot.
    rewrite Forall_forall in Hf. specialize (Hf _ Hin). lia.
Qed.

Lemma scan_fsocket_ids_None m fsocket_ids : ∀ table,
  ¬ Forall (λ f, Forall (λ id, id < length table) (IdMultiMap_lookup m f)) fsocket_ids →
  scan_fsocket_ids m fsocket_ids table = None.
Proof.
  induction fsocket_ids as [|f rest IH]; intros table Hall; simpl.
  - by destruct Hall.
  - destruct (decide (Forall (λ id, id < length table) (IdMultiMap_lookup m f)))
      as [Hf|Hf].
    + destruct (write_mapped_ids_Some f _ _ Hf) as (table1 & -> & Hlen1 & _).
      simpl. apply IH. rewrite Hlen1. intros Hrest. apply Hall. by constructor.
    + by rewrite write_mapped_ids_None.
Qed.

(** Over the ascending range of ids the last writer is the greatest id
    whose entries contain the slot, and the initial value when there is
    none. *)
Lemma last_writer_seq m slot init n :
  let r := last_writer m slot (seq 0 n) init in
  (r < n ∧ slot ∈ IdMultiMap_lookup m r ∧
   ∀ f, r < f < n → slot ∉ IdMultiMap_lookup m f) ∨
  (r = init ∧ ∀ f, f < n → slot ∉ IdMultiMap_lookup m f).
Proof.
  induction n as [|n IH]; cbv zeta in *.
  - right. split; [done|]. intros f Hf. lia.
  - unfold last_writer in *. rewrite seq_S, foldl_app. cbn [foldl Nat.add].
    case_bool_decide as Hin.
    + left. split_and!; [lia|done|]. intros f Hf. lia.
    + destruct IH as [(Hr & Hrin & Hafter)|[Hr Hnone]].
      * left. split_and!; [lia|done|]. intros f Hf.
        destruct (decide (f = n)) as [->|Hne]; [done|]. apply Hafter. lia.
      * right. split; [done|]. intros f Hf.
        destruct (decide (f = n)) as [->|Hne]; [done|]. apply Hnone. lia.
Qed.

Lemma mapped_ids_in_range_Forall this :
  mapped_ids_in_range this ↔
  Forall (λ f, Forall (λ id, id < length (replicate
                                 (socket_ids_size (MFNetwork_of_builder (m_builder this)))
                                 IdMultiMap_UNMAPPED))
                      (IdMultiMap_lookup (m_socket_by_fsocket this) f))
         (seq 0 (socket_count (m_function_tree this))).
Proof.
  unfold mapped_ids_in_range. rewrite length_replicate. unfold socket_ids_size.
  simpl. rewrite Forall_forall. setoid_rewrite Forall_forall.
  setoid_rewrite elem_of_seq. split.
  - intros H f Hf id Hid. apply (H f id); [lia|done].
  - intros H f id Hf Hid. apply (H f); [lia|done].
Qed.

(** [build] has a result exactly when every recorded id names a socket of
    the network. *)
Lemma build_is_Some this : is_Some (build IdMultiMap_UNMAPPED this) ↔ mapped_ids_in_range this.
Proof.
  rewrite mapped_ids_in_range_Forall. unfold build. split.
  - intros [net Hnet].
    match goal with |- ?G => destruct (decide G) as [Hall|Hall]; [exact Hall|] end.
    by rewrite (scan_fsocket_ids_None _ _ _ Hall) in Hnet.
  - intros Hall.
    destruct (scan_fsocket_ids_Some _ _ _ Hall) as (table' & -> & _). by eexists.
Qed.

Lemma has_data_sockets_false this fnode :
  has_data_sockets this fnode = false ↔
  data_sockets this (fnode_inputs fnode) = [] ∧
  data_sockets this (fnode_outputs fnode) = [].
Proof.
  assert (∀ l, existsb (is_data_socket this) l = false ↔ data_sockets this l = [])
    as Hex.
  { induction l as [|fsocket l IH]; [done|]. simpl. rewrite data_sockets_cons.
    destruct (is_data_socket this fsocket); simpl; [by split|exact IH]. }
  unfold has_data_sockets. rewrite orb_false_iff. by rewrite !Hex.
Qed.

(** What [add_dummy] hands to the network builder and gets back. *)
Lemma add_dummy_spec this fnode :
  let first := length (m_socket_by_id (m_builder this)) in
  let id := length (m_node_by_id (m_builder this)) in
  let ins := zip (fsocket_name <$> data_sockets this (fnode_inputs fnode))
                 (omap (try_get_data_type this) (fnode_inputs fnode)) in
  let outs := zip (fsocket_name <$> data_sockets this (fnode_outputs fnode))
                  (omap (try_get_data_type this) (fnode_outputs fnode)) in
  let node := mkNode id (fnode_name fnode) None
                (make_sockets id false first ins)
                (make_sockets id true (first + length ins) outs) in
  let b := mkNetworkBuilder (m_node_by_id (m_builder this) ++ [node])
             (m_socket_by_id (m_builder this) ++ node_inputs node ++ node_outputs node) in
  add_dummy this fnode =
  Some (node,
        with_socket_by_fsocket (with_builder this b)
          (foldl record_pair (m_socket_by_fsocket this)
             (zip (data_sockets this (fnode_inputs fnode)) (node_inputs node) ++
              zip (data_sockets this (fnode_outputs fnode)) (node_outputs node)))).
Proof.
  intros first id ins outs node b. unfold add_dummy.
  rewrite !collect_data_sockets_spec. simpl.
  unfold MFNetworkBuilder_add_dummy, MFNetworkBuilder_add_node. simpl.
  fold first id ins outs. fold node. fold b.
  rewrite map_data_sockets_spec.
  rewrite !(data_sockets_same_classifier this (with_builder this b)) by done.
  rewrite decide_True; [done|].
  subst node ins outs. simpl.
  rewrite !length_make_sockets, !length_zip, !length_fmap, !length_data_types.
  lia.
Qed.

(** C6.  [add_dummy] always returns, and the dummy node it constructs has
    one input socket per data input socket of the graph node and one output
    socket per data output socket, in order, each with the name of the
    graph socket and the type [try_get_data_type] gives for it.  The node is
    put into the network: it is appended to the nodes, its sockets are
    appended to the sockets, and nothing that was there is moved.  Then the
    socket mapping is run against it: the builder that comes back is the
    one with the node added and the data sockets of the graph node recorded,
    position by position, with the sockets of the node; the tree, the
    classifier, the type tables and the resources are as before.  For a
    graph node without data sockets the socket lists are empty, the socket
    map and the sockets of the network are left as they were, and [build]
    succeeds afterwards whenever it succeeded before, with the same socket
    map tables; in particular it succeeds when nothing was mapped before. *)
Theorem C6_add_dummy_data_socket_lists this fnode :
  ∃ node this',
    add_dummy this fnode = Some (node, this') ∧
    node_function node = None ∧
    node_name node = fnode_name fnode ∧
    socket_data_type <$> node_inputs node =
      omap (try_get_data_type this) (fnode_inputs fnode) ∧
    socket_name <$> node_inputs node =
      fsocket_name <$> data_sockets this (fnode_inputs fnode) ∧
    socket_data_type <$> node_outputs node =
      omap (try_get_data_type this) (fnode_outputs fnode) ∧
    socket_name <$> node_outputs node =
      fsocket_name <$> data_sockets this (fnode_outputs fnode) ∧
    node_id node = length (m_node_by_id (m_builder this)) ∧
    m_node_by_id (m_builder this') = m_node_by_id (m_builder this) ++ [node] ∧
    m_socket_by_id (m_builder this') =
      m_socket_by_id (m_builder this) ++ node_inputs node ++ node_outputs node ∧
    map_data_sockets (with_builder this (m_builder this')) fnode node = Some this' ∧
    this' = with_socket_by_fsocket (with_builder this (m_builder this'))
              (foldl record_pair (m_socket_by_fsocket this)
                 (zip (data_sockets this (fnode_inputs fnode)) (node_inputs node) ++
                  zip (data_sockets this (fnode_outputs fnode)) (node_outputs node))) ∧
    (has_data_sockets this fnode = false →
       node_inputs node = [] ∧ node_outputs node = [] ∧
       m_socket_by_fsocket this' = m_socket_by_fsocket this ∧
       m_socket_by_id (m_builder this') = m_socket_by_id (m_builder this) ∧
       (∀ net, build IdMultiMap_UNMAPPED this = Some net →
          ∃ net', build IdMultiMap_UNMAPPED this' = Some net' ∧ socket_map net' = socket_map net) ∧
       (m_socket_by_fsocket this = ∅ → is_Some (build IdMultiMap_UNMAPPED this'))).
Proof.
  do 2 eexists. split; [apply add_dummy_spec|]. simpl.
  split_and!; [done|done| | | | |done|done|done| |done|].
  - rewrite make_sockets_types, snd_zip; [done|].
    by rewrite length_fmap, length_data_types.
  - rewrite make_sockets_names, fst_zip; [done|].
    by rewrite length_fmap, length_data_types.
  - rewrite make_sockets_types, snd_zip; [done|].
    by rewrite length_fmap, length_data_types.
  - rewrite make_sockets_names, fst_zip; [done|].
    by rewrite length_fmap, length_data_types.
  - rewrite map_data_sockets_spec.
    match goal with
    | |- context [data_sockets ?t] =>
        rewrite !(data_sockets_same_classifier this t) by done
    end.
    rewrite decide_True; [done|]. simpl.
    rewrite !length_make_sockets, !length_zip, !length_fmap, !length_data_types.
    lia.
  - intros [Hin Hout]%has_data_sockets_false. rewrite Hin, Hout. simpl.
    rewrite ?app_nil_r. split_and!; [done..| |].
    + intros net. unfold build. simpl. unfold socket_ids_size. simpl.
      rewrite ?app_nil_r.
      destruct (scan_fsocket_ids _ _ _) as [table|]; simpl; [|done].
      intros [= <-]. by eexists.
    + intros Hempty. apply build_is_Some. intros f id _. simpl.
      rewrite Hempty, IdMultiMap_lookup_empty. by intros ?%elem_of_nil.
Qed.

(** C3 (amended).  [build] succeeds when every recorded id names a socket
    of the network, hands over the forward socket map as it is, and fills
    a reverse table with one slot per network socket id: the slot holds
    the LAST graph socket id of the ascending scan (the greatest id below
    the socket count) whose forward entries contain the network socket id,
    and the sentinel when there is none.  Each slot holds one value, so the
    result is never ambiguous. *)
Theorem C3_build_reverse_table_last_match this :
  mapped_ids_in_range this →
  ∃ net,
    build IdMultiMap_UNMAPPED this = Some net ∧
    network net = MFNetwork_of_builder (m_builder this) ∧
    map_socket_by_fsocket (socket_map net) = m_socket_by_fsocket this ∧
    length (map_fsocket_by_socket (socket_map net)) =
      length (m_socket_by_id (m_builder this)) ∧
    ∀ sid, sid < length (m_socket_by_id (m_builder this)) →
      ∃ r, map_fsocket_by_socket (socket_map net) !! sid = Some r ∧
        ((r < socket_count (m_function_tree this) ∧
          sid ∈ IdMultiMap_lookup (m_socket_by_fsocket this) r ∧
          ∀ f, r < f < socket_count (m_function_tree this) →
               sid ∉ IdMultiMap_lookup (m_socket_by_fsocket this) f) ∨
         (r = IdMultiMap_UNMAPPED ∧
          ∀ f, f < socket_count (m_function_tree this) →
               sid ∉ IdMultiMap_lookup (m_socket_by_fsocket this) f)).
Proof.
  intros Hrange%mapped_ids_in_range_Forall. unfold build.
  destruct (scan_fsocket_ids_Some _ _ _ Hrange) as (table & -> & Hlen & Hslots).
  rewrite length_replicate in Hlen. unfold socket_ids_size in *. simpl in *.
  eexists. split_and!; [done..|].
  intros sid Hsid. rewrite Hslots.
  rewrite lookup_replicate_2 by done. simpl. eexists. split; [done|].
  apply last_writer_seq.
Qed.

(** *** The type registry *)

(** C5.  Type resolution from a node property returns the type recorded
    under the property's string in the fixed type-name table, and has no
    result (a lookup error) exactly when the string is not a key of the
    table: no default type is ever substituted. *)
Theorem C5_type_from_property_lookup_or_error this fnode prop_name :
  let type_name := RNA_string (fnode_rna fnode) prop_name in
  let data_types := data_type_by_type_name (m_function_tree_mappings this) in
  let cpp_types := cpp_type_by_type_name (m_function_tree_mappings this) in
  (∀ type, data_type_from_property this fnode prop_name = Some type ↔
           data_types !! type_name = Some type) ∧
  (data_type_from_property this fnode prop_name = None ↔ type_name ∉ dom data_types) ∧
  (∀ type, cpp_type_from_property this fnode prop_name = Some type ↔
           cpp_types !! type_name = Some type) ∧
  (cpp_type_from_property this fnode prop_name = None ↔ type_name ∉ dom cpp_types).
Proof.
  unfold data_type_from_property, cpp_type_from_property, cpp_type_by_name,
    StringMap_lookup, RNA_string_get_alloc. simpl.
  split_and!; try done; by rewrite not_elem_of_dom.
Qed.

(** *** Variadic states and vectorization *)

Lemma variadic_states_loop_release items : ∀ states,
  variadic_states_loop NDEBUG items states =
  Some (states ++ state_flags ((λ itemptr, RNA_enum_get itemptr "state") <$> items)).
Proof.
  unfold state_flags.
  induction items as [|itemptr rest IH]; intros states;
    cbn [variadic_states_loop fmap list_fmap].
  - by rewrite app_nil_r.
  - rewrite filter_cons.
    destruct (decide (RNA_enum_get itemptr "state" = 0%Z)) as [H0|H0];
      [|destruct (decide (RNA_enum_get itemptr "state" = 1%Z)) as [H1|H1]].
    + rewrite IH, (decide_True (P:=valid_state _)) by (by left).
      rewrite H0. simpl. by rewrite <-app_assoc.
    + rewrite IH, (decide_True (P:=valid_state _)) by (by right).
      rewrite H1. simpl. by rewrite <-app_assoc.
    + simpl. rewrite IH, (decide_False (P:=valid_state _)); [done|].
      by intros [?|?].
Qed.

Lemma variadic_states_loop_debug items : ∀ states,
  variadic_states_loop DEBUG items states =
  if decide (Forall valid_state ((λ itemptr, RNA_enum_get itemptr "state") <$> items))
  then Some (states ++ state_flags ((λ itemptr, RNA_enum_get itemptr "state") <$> items))
  else None.
Proof.
  unfold state_flags.
  induction items as [|itemptr rest IH]; intros states;
    cbn [variadic_states_loop fmap list_fmap].
  - rewrite decide_True by constructor. by rewrite app_nil_r.
  - rewrite filter_cons.
    destruct (decide (RNA_enum_get itemptr "state" = 0%Z)) as [H0|H0];
      [|destruct (decide (RNA_enum_get itemptr "state" = 1%Z)) as [H1|H1]].
    + rewrite IH, (decide_True (P:=valid_state _)) by (by left).
      case_decide as Hrest.
      * rewrite decide_True by (constructor; [by left|done]).
        rewrite H0. simpl. by rewrite <-app_assoc.
      * rewrite decide_False; [done|]. by intros [_ ?]%Forall_cons.
    + rewrite IH, (decide_True (P:=valid_state _)) by (by right).
      case_decide as Hrest.
      * rewrite decide_True by (constructor; [by right|done]).
        rewrite H1. simpl. by rewrite <-app_assoc.
      * rewrite decide_False; [done|]. by intros [_ ?]%Forall_cons.
    + simpl. rewrite decide_False; [done|].
      intros [[?|?] _]%Forall_cons; done.
Qed.

Lemma length_state_flags states :
  length (state_flags states) = length (filter valid_state states).
Proof. unfold state_flags. by rewrite length_fmap. Qed.

Lemma length_filter_valid states :
  (Forall valid_state states → length (filter valid_state states) = length states) ∧
  (¬ Forall valid_state states → length (filter valid_state states) < length states).
Proof.
  split.
  - intros Hall. f_equal. induction Hall as [|st l Hst Hall IH]; [done|].
    rewrite filter_cons, decide_True by done. by rewrite IH.
  - intros [st [Hin Hst]]%not_Forall_Exists%Exists_exists; [|apply _].
    by eapply length_filter_lt.
Qed.

(** C9.  [get_list_base_variadic_states] returns one flag per record of
    the collection whose "state" enum is 0 (false) or 1 (true), in record
    order.  A record in any other state stops a debug build at the
    assertion; a release build appends nothing for it, so the vector comes
    out shorter than the record list and its positions no longer line up
    with the records. *)
Theorem C9_variadic_states_skip_invalid
    (this : FNodeMFNetworkBuilder (CPPType:=CPPType) (PointerRNA:=PointerRNA))
    prop_name :
  let records := RNA_collection (fnode_rna (m_fnode this)) prop_name in
  let states := item_states this prop_name in
  get_list_base_variadic_states NDEBUG this prop_name = Some (state_flags states) ∧
  length (state_flags states) = length (filter valid_state states) ∧
  (Forall valid_state states →
     get_list_base_variadic_states DEBUG this prop_name = Some (state_flags states) ∧
     state_flags states = (λ state, bool_decide (state = 1%Z)) <$> states ∧
     length (state_flags states) = length records) ∧
  (¬ Forall valid_state states →
     get_list_base_variadic_states DEBUG this prop_name = None ∧
     length (state_flags states) < length records).
Proof.
  intros records states. unfold get_list_base_variadic_states.
  rewrite variadic_states_loop_release, variadic_states_loop_debug.
  fold records. fold (item_states this prop_name). fold states.
  assert (length states = length records) as Hlen
    by (unfold states, item_states; by rewrite length_fmap).
  destruct (length_filter_valid states) as [Hok Hbad].
  rewrite length_state_flags. simpl. split_and!; [done..| |].
  - intros Hall. rewrite decide_True by done. split_and!; [done| |].
    + unfold state_flags. f_equal. clear -Hall.
      induction Hall as [|st l Hst Hall IH]; [done|].
      rewrite filter_cons, decide_True by done. by rewrite IH.
    + rewrite Hok by done. done.
  - intros Hnot. rewrite decide_False by done. split; [done|].
    rewrite <-Hlen. by apply Hbad.
Qed.

Lemma input_is_vectorized_loop_spec mode
    (this : FNodeMFNetworkBuilder (CPPType:=CPPType) (PointerRNA:=PointerRNA))
    prop_names : ∀ flags,
  Forall (state_readable mode this) prop_names →
  input_is_vectorized_loop mode (fnode_rna (m_fnode this)) prop_names flags =
  Some (flags ++ (is_list_prop this <$> prop_names)).
Proof.
  induction prop_names as [|prop_name rest IH]; intros flags Hall; simpl.
  - by rewrite app_nil_r.
  - apply Forall_cons in Hall as [Hprop Hall].
    unfold RNA_string_get, is_list_prop.
    assert (BLI_assert mode
              (STREQ (RNA_string (fnode_rna (m_fnode this)) prop_name) "BASE"
               || STREQ (RNA_string (fnode_rna (m_fnode this)) prop_name) "LIST")
            = Some tt) as Hassert.
    { destruct mode; [|done]. by destruct Hprop as [-> | ->]. }
    rewrite decide_True
      by (destruct mode; [destruct Hprop as [-> | ->]; simpl; lia|exact Hprop]).
    simpl. rewrite Hassert. simpl. rewrite IH by done.
    by rewrite <-app_assoc.
Qed.

Lemma contains_true_Exists (flags : list bool) :
  contains_true flags = true ↔ Exists (λ b, b = true) flags.
Proof.
  unfold contains_true. induction flags as [|b flags IH]; simpl.
  - split; [done|]. by intros ?%Exists_nil.
  - rewrite Exists_cons, <-IH. by destruct b; intuition.
Qed.

Lemma MF_SimpleVectorize_fresh base flags : MF_SimpleVectorize base flags ≠ base.
Proof.
  revert flags. induction base as [|base IH flags']; intros flags; [done|].
  intros [= Hbase _]. by eapply IH.
Qed.

(** C4.  With every per-input property holding a state the build can read
    (one of the two identifiers; a release build does not assert that):
    when no input is flagged "LIST" [get_vectorized_function] returns the
    base callable itself and constructs nothing (the builder, with its
    resources, is as before); when at least one input is flagged "LIST" it
    returns the [MF_SimpleVectorize] wrapper newly constructed around the
    base callable with the list of flags, which is a callable other than
    the base and is now owned by the resource collector. *)
Theorem C4_get_vectorized_function mode
    (this : FNodeMFNetworkBuilder (CPPType:=CPPType) (PointerRNA:=PointerRNA))
    (base_function : MultiFunction) prop_names :
  Forall (state_readable mode this) prop_names →
  let flags := is_list_prop this <$> prop_names in
  let wrapper := MF_SimpleVectorize base_function flags in
  (Forall (λ prop_name, is_list_prop this prop_name = false) prop_names →
     get_vectorized_function mode this base_function prop_names =
     Some (base_function, this)) ∧
  (Exists (λ prop_name, is_list_prop this prop_name = true) prop_names →
     get_vectorized_function mode this base_function prop_names =
     Some (wrapper,
           mkFNodeBuilder
             (with_resources (m_network_builder this)
                (m_resources (m_network_builder this) ++ [wrapper]))
             (m_fnode this)) ∧
     wrapper ≠ base_function).
Proof.
  intros Hall flags wrapper. unfold get_vectorized_function.
  rewrite input_is_vectorized_loop_spec by done. simpl. fold flags.
  split.
  - intros Hnone.
    destruct (contains_true flags) eqn:Hc; [|done].
    apply contains_true_Exists, Exists_fmap, Exists_exists in Hc
      as (prop_name & Hin & Htrue).
    rewrite Forall_forall in Hnone. specialize (Hnone _ Hin). congruence.
  - intros Hsome. split; [|apply MF_SimpleVectorize_fresh].
    assert (contains_true flags = true) as ->; [|done].
    apply contains_true_Exists, Exists_fmap.
    eapply Exists_impl; [exact Hsome|done].
Qed.

(** *** The diagnostic pass and the type invariant *)







Lemma add_node_registered b name (callable : option MultiFunction) ins outs :
  let '(node, b') := MFNetworkBuilder_add_node b name callable ins outs in
  ∀ socket, socket ∈ node_inputs node ++ node_outputs node →
            m_socket_by_id b' !! socket_id socket = Some socket.
Proof.
  unfold MFNetworkBuilder_add_node. simpl.
  intros socket [Hin|Hout]%elem_of_app.
  - apply list_elem_of_lookup_1 in Hin as [i Hi].
    destruct (lookup_make_sockets _ _ _ _ _ _ Hi) as (-> & _).
    rewrite lookup_app_r by lia. replace (_ + i - _) with i by lia.
    by apply lookup_app_l_Some.
  - apply list_elem_of_lookup_1 in Hout as [i Hi].
    destruct (lookup_make_sockets _ _ _ _ _ _ Hi) as (-> & _).
    rewrite lookup_app_r by lia.
    rewrite lookup_app_r by (rewrite length_make_sockets; lia).
    rewrite length_make_sockets.
    replace (_ + i - _ - _) with i by lia. done.
Qed.



Lemma add_dummy_unfold this fnode :
  add_dummy this fnode =
  let '(node, b) :=
    MFNetworkBuilder_add_dummy (m_builder this) (fnode_name fnode)
      (omap (try_get_data_type this) (fnode_inputs fnode))
      (omap (try_get_data_type this) (fnode_outputs fnode))
      (fsocket_name <$> data_sockets this (fnode_inputs fnode))
      (fsocket_name <$> data_sockets this (fnode_outputs fnode)) in
  this' ← map_data_sockets (with_builder this b) fnode node;
  Some (node, this').
Proof. unfold add_dummy. by rewrite !collect_data_sockets_spec. Qed.








(** *** One entry per output socket *)




End builder_facts.

(** * The scenarios, evaluated *)

Section scenario_facts.
Import FN FN.scenario.

Lemma fnode_distinct_socket_ids : distinct_socket_ids fnode.
Proof. unfold distinct_socket_ids. compute_done. Qed.


(** The positional-alignment scenario: with b skipped, a is paired with
    input 0 and c with input 1 of the network node, and a is not paired
    with input 1. *)
Lemma C1_positional_alignment_witness :
  ∃ this',
    map_data_sockets builder1 fnode node_add = Some this' ∧
    mapped_ids this' a = [0] ∧ mapped_ids this' b = [] ∧
    mapped_ids this' c = [1] ∧ mapped_ids this' r = [2].
Proof.
  destruct (C1_map_data_sockets_positional builder1 fnode node_add)
    as (this' & Hcall & -> & _).
  - exact fnode_distinct_socket_ids.
  - vm_compute. lia.
  - vm_compute. lia.
  - eexists. split; [exact Hcall|]. by vm_compute.
Defined.



Lemma shared3_calls :
  map_data_sockets shared1 fnode_p node_id_fn = Some shared2 ∧
  map_data_sockets shared2 fnode_q node_id_fn = Some shared3.
Proof. by vm_compute. Qed.

Lemma shared3_in_range : mapped_ids_in_range shared3.
Proof. apply mapped_ids_in_range_Forall with (IdMultiMap_UNMAPPED := UNMAPPED). compute_done. Qed.

(** Both graph sockets p (id 0) and q (id 1) map to network socket 0: the
    reverse table records q, the last of the scan. *)
Lemma C3_last_match_witness :
  ∃ net,
    build UNMAPPED shared3 = Some net ∧
    map_fsocket_by_socket (socket_map net) = [1].
Proof.
  destruct (C3_build_reverse_table_last_match UNMAPPED shared3 shared3_in_range)
    as (net & Hbuild & _).
  exists net. split; [exact Hbuild|].
  vm_compute in Hbuild. by injection Hbuild as <-.
Defined.

Lemma C3_first_match_counterexample :
  ∃ net,
    build UNMAPPED shared3 = Some net ∧
    mapped_ids shared3 p = [0] ∧ mapped_ids shared3 q = [0] ∧
    map_fsocket_by_socket (socket_map net) !! 0 = Some (fsocket_id q) ∧
    ¬ reverse_table_first_match UNMAPPED shared3.
Proof.
  destruct (build UNMAPPED shared3) as [net|] eqn:Hbuild;
    [|by vm_compute in Hbuild].
  exists net. split; [done|].
  pose proof Hbuild as Hnet. vm_compute in Hnet. injection Hnet as <-.
  split_and!; [by vm_compute..|].
  intros Hclaim.
  destruct (Hclaim _ 0 1 Hbuild) as [(_ & _ & Hfirst)|[Hunmapped _]].
  - done.
  - apply (Hfirst 0); [lia|]. vm_compute. left.
  - done.
Qed.

(** Properties "BASE" and "LIST": the wrapper is returned. *)
Lemma C4_vectorized_witness :
  fst <$> get_vectorized_function DEBUG per_node fn_add ["use_list__a"; "use_list__c"]
  = Some (MF_SimpleVectorize fn_add [false; true]).
Proof.
  destruct (C4_get_vectorized_function DEBUG per_node fn_add
              ["use_list__a"; "use_list__c"]) as [_ Hlist].
  - repeat apply Forall_cons_2; [by left|by right|constructor].
  - destruct Hlist as [-> _]; [|done].
    apply Exists_cons_tl, Exists_cons_hd. by vm_compute.
Defined.



(** Three records in states 0, 1 and 2: the release build returns two
    flags, the debug build stops at the assertion. *)
Example variadic_states_invalid_record :
  let this := mkFNodeBuilder builder0
                (mkFNode "V" [] [] (mkTableRNA [] [0%Z; 1%Z; 2%Z])) in
  get_list_base_variadic_states NDEBUG this "variadic" = Some [false; true] ∧
  get_list_base_variadic_states DEBUG this "variadic" = None.
Proof. by vm_compute. Qed.

(** A property that holds neither identifier: the debug build stops at the
    assertion, the release build takes it for a single value. *)
Example vectorized_unknown_state :
  get_vectorized_function DEBUG per_node fn_add ["use_list__x"] = None ∧
  fst <$> get_vectorized_function NDEBUG per_node fn_add ["use_list__x"] = Some fn_add.
Proof. by vm_compute. Qed.

(** A type name that is not in the table has no result; one that is in
    the table resolves to its entry. *)
Example type_from_property_lookup :
  let typed := mkFNode "T" [] [] (mkTableRNA [("data_type", "Float")] []) in
  let untyped := mkFNode "U" [] [] (mkTableRNA [("data_type", "Quaternion")] []) in
  data_type_from_property builder0 typed "data_type" = Some float ∧
  data_type_from_property builder0 untyped "data_type" = None.
Proof. by vm_compute. Qed.

End scenario_facts.

(** * Further properties of the BVM function tables *)

Section function_bvm_more_facts.
Import blenvm.
Context {TypeDesc StackIndex : Type}.
Implicit Types (f : FunctionBVM (TypeDesc:=TypeDesc) (StackIndex:=StackIndex)).
Implicit Types (l k : list (Argument (TypeDesc:=TypeDesc) (StackIndex:=StackIndex))).
Implicit Types (a : Argument (TypeDesc:=TypeDesc) (StackIndex:=StackIndex)).
Implicit Types (td : TypeDesc) (off : StackIndex).

Lemma scan_by_name_app l k key :
  scan_by_name (l ++ k) key =
  match scan_by_name l key with
  | Some a => Some a
  | None => scan_by_name k key
  end.
Proof.
  induction l as [|b l IH]; [done|]. simpl.
  by destruct (String.eqb (name b) key).
Qed.

Lemma scan_by_name_singleton td key off key' :
  scan_by_name [mkArgument td key off] key' =
  if decide (key = key') then Some (mkArgument td key off) else None.
Proof.
  simpl. destruct (String.eqb_spec key key'); by case_decide.
Qed.

(** X1.  The index-keyed side of the tables: [add_argument] pushes at the
    back, so the new entry is read back at the old count, every earlier
    index reads what it read before, every later index is past the end, and
    the return values are not touched; [add_return_value] does the same to
    the other table. *)
Theorem X1_add_then_index_lookup f td key off :
  let f' := add_argument f td key off in
  let g' := add_return_value f td key off in
  (num_arguments f' = S (num_arguments f) ∧
   argument_at f' (num_arguments f) = Some (mkArgument td key off) ∧
   (∀ i, i < num_arguments f → argument_at f' i = argument_at f i) ∧
   (∀ i, num_arguments f < i → argument_at f' i = None) ∧
   m_return_values f' = m_return_values f) ∧
  (num_return_values g' = S (num_return_values f) ∧
   return_value_at g' (num_return_values f) = Some (mkArgument td key off) ∧
   (∀ i, i < num_return_values f → return_value_at g' i = return_value_at f i) ∧
   (∀ i, num_return_values f < i → return_value_at g' i = None) ∧
   m_arguments g' = m_arguments f).
Proof.
  unfold num_arguments, num_return_values, argument_at, return_value_at. simpl.
  split; split_and!; try done.
  - rewrite length_app. simpl. lia.
  - by rewrite lookup_app_r, Nat.sub_diag by lia.
  - intros i Hi. by rewrite lookup_app_l.
  - intros i Hi. apply lookup_ge_None. rewrite length_app. simpl. lia.
  - rewrite length_app. simpl. lia.
  - by rewrite lookup_app_r, Nat.sub_diag by lia.
  - intros i Hi. by rewrite lookup_app_l.
  - intros i Hi. apply lookup_ge_None. rewrite length_app. simpl. lia.
Qed.

(** X2.  The name-keyed side: an entry pushed under a name that is already
    stored is shadowed, the lookup keeps returning the older entry; it is
    found by name only when the name was not stored before.  Lookups of
    other names, and of the other table, are as before. *)
Theorem X2_add_then_name_lookup f td key off key' :
  let entry := mkArgument td key off in
  argument (add_argument f td key off) key' =
    match argument f key' with
    | Some a => Some a
    | None => if decide (key = key') then Some entry else None
    end ∧
  return_value (add_argument f td key off) key' = return_value f key' ∧
  return_value (add_return_value f td key off) key' =
    match return_value f key' with
    | Some a => Some a
    | None => if decide (key = key') then Some entry else None
    end ∧
  argument (add_return_value f td key off) key' = argument f key'.
Proof.
  unfold argument, return_value. simpl.
  by rewrite !scan_by_name_app, !scan_by_name_singleton.
Qed.

(** X3.  When the stored names are pairwise distinct the two lookups agree:
    the entry read at an index is the one found under its name. *)
Theorem X3_distinct_names_index_then_name f i a :
  NoDup (name <$> m_arguments f) →
  argument_at f i = Some a →
  argument f (name a) = Some a.
Proof.
  unfold argument_at, argument. generalize (m_arguments f). clear f.
  intros l. revert i. induction l as [|b l IH]; intros i Hnd Hi; [done|].
  rewrite fmap_cons, NoDup_cons in Hnd. destruct Hnd as [Hfresh Hnd]. simpl.
  destruct i as [|i]; simpl in Hi.
  - injection Hi as ->. by rewrite String.eqb_refl.
  - destruct (String.eqb_spec (name b) (name a)) as [Heq|Hne]; [|by eapply IH].
    destruct Hfresh. rewrite Heq. apply list_elem_of_fmap_2.
    by eapply list_elem_of_lookup_2.
Qed.

End function_bvm_more_facts.

(** * Further properties of the network builder *)

Section builder_more_facts.
Import FN.
Context {CPPType : Type} `{!EqDecision CPPType}.
Context {PointerRNA : Type} `{!PropertyReader PointerRNA}.
Variable IdMultiMap_UNMAPPED : nat.
Implicit Types
  (this : FunctionTreeMFNetworkBuilder (CPPType:=CPPType) (PointerRNA:=PointerRNA)).
Implicit Types (fnode : FNode (PointerRNA:=PointerRNA)).
Implicit Types (node : MFBuilderNode (CPPType:=CPPType)).
Implicit Types (function fn base : MultiFunction (CPPType:=CPPType)).
Implicit Types (socket : MFBuilderSocket (CPPType:=CPPType)).
Implicit Types (net : FunctionTreeMFNetwork (CPPType:=CPPType) (PointerRNA:=PointerRNA)).

(** What a returning [map_data_sockets] adds under a graph socket: ids of
    sockets of the network node, after the entries that were there; at
    least one for a data socket of the graph node. *)
Lemma map_data_sockets_gain this fnode node this' fsocket :
  map_data_sockets this fnode node = Some this' →
  ∃ gained,
    mapped_ids this' fsocket = mapped_ids this fsocket ++ gained ∧
    Forall (λ id, ∃ socket, socket ∈ node_inputs node ++ node_outputs node ∧
                            socket_id socket = id) gained ∧
    (fsocket ∈ fnode_sockets fnode → is_data_socket this fsocket → gained ≠ []).
Proof.
  rewrite map_data_sockets_spec. case_decide as Hlen; [|done].
  destruct Hlen as [Hli Hlo]. intros [= <-].
  eexists. split; [apply mapped_ids_after_pairs|]. split.
  - apply Forall_fmap, Forall_forall. intros [fs socket] [_ Hin]%list_elem_of_filter.
    exists socket. split; [|done]. unfold positional_pairs in Hin.
    apply elem_of_app. apply elem_of_app in Hin as [Hin|Hin];
      [left|right]; by eapply elem_of_zip_r.
  - intros Hfs Hdata Hnil. apply fmap_nil_inv in Hnil.
    assert (∀ fsockets sockets,
              length (data_sockets this fsockets) ≤ length sockets →
              fsocket ∈ fsockets →
              ∃ socket, (fsocket, socket) ∈ positional_pairs this fsockets sockets)
      as Hpair.
    { intros fsockets sockets Hle Hin.
      assert (fsocket ∈ data_sockets this fsockets) as [i Hi]%list_elem_of_lookup_1
        by (by apply list_elem_of_filter).
      destruct (lookup_lt_is_Some_2 sockets i) as [socket Hsock].
      { apply lookup_lt_Some in Hi. lia. }
      exists socket. eapply list_elem_of_lookup_2. by apply lookup_zip_Some. }
    assert (∃ socket, (fsocket, socket) ∈
              positional_pairs this (fnode_inputs fnode) (node_inputs node) ++
              positional_pairs this (fnode_outputs fnode) (node_outputs node))
      as [socket Hin].
    { apply elem_of_app in Hfs as [Hfs|Hfs].
      - destruct (Hpair _ _ Hli Hfs) as [socket ?]. exists socket.
        apply elem_of_app. by left.
      - destruct (Hpair _ _ Hlo Hfs) as [socket ?]. exists socket.
        apply elem_of_app. by right. }
    assert ((fsocket, socket) ∈
              filter (λ p, (fsocket_id ∘ fst) p = fsocket_id fsocket)
                (positional_pairs this (fnode_inputs fnode) (node_inputs node) ++
                 positional_pairs this (fnode_outputs fnode) (node_outputs node)))
      as Hfil by (by apply list_elem_of_filter).
    rewrite Hnil in Hfil. by apply elem_of_nil in Hfil.
Qed.

(** The operations that map a graph node run [map_data_sockets] on the
    builder that holds the node just added to the network. *)
Lemma maps_fnode_added this fnode this' :
  maps_fnode this fnode this' →
  (∃ node, map_data_sockets this fnode node = Some this') ∨
  (∃ node b name callable ins outs,
     MFNetworkBuilder_add_node (m_builder this) name callable ins outs = (node, b) ∧
     map_data_sockets (with_builder this b) fnode node = Some this').
Proof.
  intros [[node Hcall]|[[node Hcall]|[(function & node & Hcall)|[fn Hcall]]]].
  - left. by exists node.
  - right. rewrite add_dummy_unfold in Hcall. unfold MFNetworkBuilder_add_dummy in Hcall.
    destruct (MFNetworkBuilder_add_node _ _ _ _ _) as [node0 b] eqn:Hadd.
    destruct (map_data_sockets _ fnode node0) as [this1|] eqn:Hmap; [|done].
    injection Hcall as <- <-. by eexists _, _, _, _, _, _.
  - right. unfold add_function_fnode, add_function, MFNetworkBuilder_add_function in Hcall.
    destruct (MFNetworkBuilder_add_node _ _ _ _ _) as [node0 b] eqn:Hadd.
    destruct (map_data_sockets _ fnode node0) as [this1|] eqn:Hmap; [|done].
    injection Hcall as <- <-. by eexists _, _, _, _, _, _.
  - right. unfold set_matching_fn, add_function, MFNetworkBuilder_add_function in Hcall.
    cbn [m_network_builder m_fnode] in Hcall.
    destruct (MFNetworkBuilder_add_node _ _ _ _ _) as [node0 b] eqn:Hadd.
    destruct (map_data_sockets _ fnode node0) as [this1|] eqn:Hmap; [|done].
    injection Hcall as <-. by eexists _, _, _, _, _, _.
Qed.

(** X4.  The only way the mapping operations can go wrong is an index past
    the end of the network node's socket array: [map_data_sockets] has a
    result exactly when the node has at least as many input sockets as the
    graph node has data inputs, and as many output sockets as it has data
    outputs.  For the two-argument [add_function] and for [set_matching_fn]
    the node is the one made for the callable, so the bound is on the
    callable's declared inputs and outputs. *)
Theorem X4_mapping_defined_iff_enough_sockets this fnode :
  (∀ node,
     is_Some (map_data_sockets this fnode node) ↔
     enough_sockets this fnode (length (node_inputs node)) (length (node_outputs node))) ∧
  (∀ function,
     is_Some (add_function_fnode this function fnode) ↔
     enough_sockets this fnode (length (mf_inputs function))
                    (length (mf_outputs function))) ∧
  (∀ fn,
     is_Some (set_matching_fn (mkFNodeBuilder this fnode) fn) ↔
     enough_sockets this fnode (length (mf_inputs fn)) (length (mf_outputs fn))).
Proof.
  assert (∀ this0 node,
            m_preprocessed_function_tree_data this0 =
              m_preprocessed_function_tree_data this →
            is_Some (map_data_sockets this0 fnode node) ↔
            enough_sockets this fnode (length (node_inputs node))
                           (length (node_outputs node))) as Hcore.
  { intros this0 node Hpre. rewrite map_data_sockets_spec. unfold enough_sockets.
    rewrite !(data_sockets_same_classifier this this0) by done.
    case_decide; split; try done; by intros [? [=]]. }
  split_and!.
  - intros node. by apply Hcore.
  - intros function. unfold add_function_fnode, add_function,
      MFNetworkBuilder_add_function, MFNetworkBuilder_add_node. cbn zeta beta iota.
    match goal with
    | |- is_Some (map_data_sockets ?t fnode ?n ≫= _) ↔ _ =>
        pose proof (Hcore t n eq_refl) as Hnode;
        destruct (map_data_sockets t fnode n)
    end; simpl in *; rewrite !length_make_sockets in Hnode; rewrite <-Hnode;
      split; try done; by intros [? [=]].
  - intros fn. unfold set_matching_fn, add_function,
      MFNetworkBuilder_add_function, MFNetworkBuilder_add_node.
    cbn [m_network_builder m_fnode]. cbn zeta beta iota.
    match goal with
    | |- is_Some (map_data_sockets ?t fnode ?n ≫= _) ↔ _ =>
        pose proof (Hcore t n eq_refl) as Hnode;
        destruct (map_data_sockets t fnode n)
    end; simpl in *; rewrite !length_make_sockets in Hnode; rewrite <-Hnode;
      split; try done; by intros [? [=]].
Qed.

(** X5.  Mapping is append-only.  Whatever operation maps a graph node
    ([map_data_sockets], [add_dummy], the two-argument [add_function],
    [set_matching_fn]), the entries every graph socket had are still there,
    in order, at the front of its entries; every data socket of the graph
    node has gained at least one; the sockets and nodes of the network are
    those from before with new ones behind them; and the tree, the
    classifier, the type tables and the resources are not written. *)
Theorem X5_mapping_is_append_only this fnode this' :
  maps_fnode this fnode this' →
  (∀ fsocket, mapped_ids this fsocket `prefix_of` mapped_ids this' fsocket) ∧
  (∀ fsocket, fsocket ∈ fnode_sockets fnode → is_data_socket this fsocket →
     length (mapped_ids this fsocket) < length (mapped_ids this' fsocket)) ∧
  m_socket_by_id (m_builder this) `prefix_of` m_socket_by_id (m_builder this') ∧
  m_node_by_id (m_builder this) `prefix_of` m_node_by_id (m_builder this') ∧
  m_function_tree this' = m_function_tree this ∧
  m_preprocessed_function_tree_data this' = m_preprocessed_function_tree_data this ∧
  m_function_tree_mappings this' = m_function_tree_mappings this ∧
  m_resources this' = m_resources this.
Proof.
  intros Hstep.
  assert (∃ this0 node,
            map_data_sockets this0 fnode node = Some this' ∧
            m_socket_by_fsocket this0 = m_socket_by_fsocket this ∧
            m_preprocessed_function_tree_data this0 =
              m_preprocessed_function_tree_data this ∧
            m_function_tree this0 = m_function_tree this ∧
            m_function_tree_mappings this0 = m_function_tree_mappings this ∧
            m_resources this0 = m_resources this ∧
            m_socket_by_id (m_builder this) `prefix_of` m_socket_by_id (m_builder this0) ∧
            m_node_by_id (m_builder this) `prefix_of` m_node_by_id (m_builder this0))
    as (this0 & node & Hcall & Hmap & Hpre & Htree & Hmappings & Hres & Hsockets & Hnodes).
  { destruct (maps_fnode_added _ _ _ Hstep)
      as [[node Hcall]|(node & b & name & callable & ins & outs & Hadd & Hcall)].
    - by exists this, node.
    - unfold MFNetworkBuilder_add_node in Hadd. injection Hadd as _ <-.
      eexists _, _. split; [exact Hcall|].
      simpl. split_and!; try done; by eexists. }
  pose proof (map_data_sockets_frame _ _ _ _ Hcall) as Hframe.
  split_and!.
  - intros fsocket.
    destruct (map_data_sockets_gain _ _ _ _ fsocket Hcall) as (gained & -> & _).
    unfold mapped_ids. rewrite Hmap. by eexists.
  - intros fsocket Hfs Hdata.
    destruct (map_data_sockets_gain _ _ _ _ fsocket Hcall) as (gained & -> & _ & Hne).
    rewrite length_app. unfold mapped_ids at 2. rewrite Hmap.
    fold (mapped_ids this fsocket).
    assert (gained ≠ []) as Hgained.
    { apply Hne; [done|]. unfold is_data_socket, try_get_data_type in *.
      by rewrite Hpre. }
    unfold mapped_ids. destruct gained; [done|]. simpl. lia.
  - by rewrite Hframe.
  - by rewrite Hframe.
  - by rewrite Hframe.
  - by rewrite Hframe.
  - by rewrite Hframe.
  - by rewrite Hframe.
Qed.

(** The operations that add a node for a graph node map the graph node onto
    the node they have just added. *)
Lemma adds_node_then_maps this fnode this' :
  (∃ node, add_dummy this fnode = Some (node, this')) ∨
  (∃ function node, add_function_fnode this function fnode = Some (node, this')) ∨
  (∃ fn, set_matching_fn (mkFNodeBuilder this fnode) fn =
         Some (mkFNodeBuilder this' fnode)) →
  ∃ node b name callable ins outs,
    MFNetworkBuilder_add_node (m_builder this) name callable ins outs = (node, b) ∧
    map_data_sockets (with_builder this b) fnode node = Some this'.
Proof.
  intros [[node' Hcall']|[(function & node' & Hcall')|[fn Hcall']]].
  - rewrite add_dummy_unfold in Hcall'. unfold MFNetworkBuilder_add_dummy in Hcall'.
    destruct (MFNetworkBuilder_add_node _ _ _ _ _) as [node0 b] eqn:Hadd.
    destruct (map_data_sockets _ fnode node0) as [this1|] eqn:Hmap; [|done].
    injection Hcall' as <- <-. by eexists _, _, _, _, _, _.
  - unfold add_function_fnode, add_function, MFNetworkBuilder_add_function in Hcall'.
    destruct (MFNetworkBuilder_add_node _ _ _ _ _) as [node0 b] eqn:Hadd.
    destruct (map_data_sockets _ fnode node0) as [this1|] eqn:Hmap; [|done].
    injection Hcall' as <- <-. by eexists _, _, _, _, _, _.
  - unfold set_matching_fn, add_function, MFNetworkBuilder_add_function in Hcall'.
    cbn [m_network_builder m_fnode] in Hcall'.
    destruct (MFNetworkBuilder_add_node _ _ _ _ _) as [node0 b] eqn:Hadd.
    destruct (map_data_sockets _ fnode node0) as [this1|] eqn:Hmap; [|done].
    injection Hcall' as <-. by eexists _, _, _, _, _, _.
Qed.

Lemma entries_registered_after_adding this fnode this' node b name callable ins outs :
  entries_registered this →
  MFNetworkBuilder_add_node (m_builder this) name callable ins outs = (node, b) →
  map_data_sockets (with_builder this b) fnode node = Some this' →
  entries_registered this'.
Proof.
  intros Hreg Hadd Hcall key id Hid.
  pose proof (add_node_registered (m_builder this) name callable ins outs) as Hnode.
  rewrite Hadd in Hnode.
  pose proof (map_data_sockets_frame _ _ _ _ Hcall) as Hframe.
  destruct (map_data_sockets_gain _ _ _ _ (mkFSocket key "" true) Hcall)
    as (gained & Hids & Hgained & _).
  unfold mapped_ids in Hids. simpl in Hids. rewrite Hids in Hid.
  rewrite Hframe. simpl.
  apply elem_of_app in Hid as [Hold|Hnew].
  - specialize (Hreg key id Hold).
    unfold MFNetworkBuilder_add_node in Hadd. injection Hadd as _ <-. simpl.
    rewrite length_app. lia.
  - rewrite Forall_forall in Hgained.
    destruct (Hgained id Hnew) as (socket & Hsock & <-).
    eapply lookup_lt_Some. by apply Hnode.
Qed.

(** X6.  A builder reached from the constructor through [add_function]
    (either overload), [add_dummy], [set_matching_fn] and
    [get_vectorized_function] only ever records ids of sockets that are in
    the network, whatever ids the graph sockets carry; so the write
    [fsocket_by_socket[mapped_id]] of [build] stays inside the table and
    [build] has a result. *)
Theorem X6_constructed_builder_builds this :
  constructed this →
  entries_registered this ∧ is_Some (build IdMultiMap_UNMAPPED this).
Proof.
  intros Hc.
  assert (entries_registered this) as Hreg.
  { induction Hc as [tree pre mappings resources
                    | this function Hc IH
                    | this function fnode node this' Hc IH Hcall
                    | this fnode node this' Hc IH Hcall
                    | this fnode fn per_node' Hc IH Hcall
                    | mode this fnode base names fn per_node' Hc IH Hcall].
    - intros key id. simpl. rewrite IdMultiMap_lookup_empty. by intros ?%elem_of_nil.
    - intros key id Hid. specialize (IH key id Hid).
      unfold add_function, MFNetworkBuilder_add_function, MFNetworkBuilder_add_node.
      simpl. rewrite length_app. lia.
    - destruct (adds_node_then_maps this fnode this')
        as (node0 & b & name & callable & ins & outs & Hadd & Hmap).
      { right. left. by exists function, node. }
      by eapply entries_registered_after_adding.
    - destruct (adds_node_then_maps this fnode this')
        as (node0 & b & name & callable & ins & outs & Hadd & Hmap).
      { left. by exists node. }
      by eapply entries_registered_after_adding.
    - destruct per_node' as [this' fnode'].
      assert (fnode' = fnode) as ->.
      { unfold set_matching_fn in Hcall. cbn [m_network_builder m_fnode] in Hcall.
        destruct (add_function this fn) as [node0 nb].
        destruct (map_data_sockets nb fnode node0); [|done]. by injection Hcall. }
      destruct (adds_node_then_maps this fnode this')
        as (node0 & b & name & callable & ins & outs & Hadd & Hmap).
      { right. right. by exists fn. }
      by eapply entries_registered_after_adding.
    - unfold get_vectorized_function in Hcall.
      destruct (input_is_vectorized_loop _ _ _ _) as [flags|]; [|done].
      simpl in Hcall. destruct (contains_true flags); by injection Hcall as _ <-. }
  split; [done|]. apply build_is_Some. intros f id _ Hid. by eapply Hreg.
Qed.

(** X7.  The reverse table inverts the forward map wherever the forward map
    is one-to-one: if [build] returns and the network socket id [s] is
    recorded under the graph socket id [f], below the socket count, and
    under no other one, then slot [s] of the reverse table holds [f]. *)
Theorem X7_reverse_table_inverts_unique_entry this net f s :
  build IdMultiMap_UNMAPPED this = Some net →
  f < socket_count (m_function_tree this) →
  s ∈ IdMultiMap_lookup (m_socket_by_fsocket this) f →
  (∀ f', f' < socket_count (m_function_tree this) →
         s ∈ IdMultiMap_lookup (m_socket_by_fsocket this) f' → f' = f) →
  map_fsocket_by_socket (socket_map net) !! s = Some f.
Proof.
  intros Hbuild Hf Hs Hunique.
  assert (mapped_ids_in_range this) as Hrange
    by (apply (proj1 (build_is_Some IdMultiMap_UNMAPPED this)); by eexists).
  pose proof (Hrange f s Hf Hs) as Hslot.
  apply mapped_ids_in_range_Forall with (IdMultiMap_UNMAPPED := IdMultiMap_UNMAPPED)
    in Hrange.
  unfold build in Hbuild.
  destruct (scan_fsocket_ids_Some _ _ _ Hrange) as (table & Hscan & _ & Hslots).
  rewrite Hscan in Hbuild. injection Hbuild as <-. simpl.
  rewrite Hslots. unfold socket_ids_size. simpl.
  rewrite lookup_replicate_2 by done. simpl. f_equal.
  destruct (last_writer_seq (m_socket_by_fsocket this) s IdMultiMap_UNMAPPED
              (socket_count (m_function_tree this)))
    as [(Hr & Hin & _)|[_ Hnone]].
  - by apply Hunique.
  - by destruct (Hnone f Hf).
Qed.

Lemma input_is_vectorized_loop_defined mode
    (this : FNodeMFNetworkBuilder (CPPType:=CPPType) (PointerRNA:=PointerRNA))
    prop_names : ∀ flags,
  is_Some (input_is_vectorized_loop mode (fnode_rna (m_fnode this)) prop_names flags) →
  Forall (state_readable mode this) prop_names.
Proof.
  induction prop_names as [|prop_name rest IH]; intros flags Hsome; [constructor|].
  simpl in Hsome. unfold RNA_string_get in Hsome.
  case_decide as Hlen; simpl in Hsome; [|by destruct Hsome].
  destruct mode; simpl in Hsome.
  - destruct (STREQ _ "BASE") eqn:Hbase; simpl in Hsome.
    + constructor; [|by eapply IH]. left. by apply String.eqb_eq.
    + destruct (STREQ _ "LIST") eqn:Hlist; simpl in Hsome; [|by destruct Hsome].
      constructor; [|by eapply IH]. right. by apply String.eqb_eq.
  - constructor; [exact Hlen|by eapply IH].
Qed.

(** X8.  [get_vectorized_function] has a result exactly when every state
    property can be read: its string fits the buffer of five characters
    with the terminator, and, in a debug build, it is "BASE" or "LIST".  A
    longer string overruns the buffer in either build. *)
Theorem X8_get_vectorized_function_defined_iff mode
    (this : FNodeMFNetworkBuilder (CPPType:=CPPType) (PointerRNA:=PointerRNA))
    (base_function : MultiFunction) prop_names :
  (is_Some (get_vectorized_function mode this base_function prop_names) ↔
   Forall (state_readable mode this) prop_names) ∧
  (∀ prop_name, prop_name ∈ prop_names →
     5 ≤ String.length (RNA_string (fnode_rna (m_fnode this)) prop_name) →
     get_vectorized_function mode this base_function prop_names = None).
Proof.
  assert (is_Some (get_vectorized_function mode this base_function prop_names) ↔
          Forall (state_readable mode this) prop_names) as Hiff.
  { unfold get_vectorized_function. split.
    - intros Hsome. apply (input_is_vectorized_loop_defined mode this prop_names []).
      destruct (input_is_vectorized_loop _ _ _ _); [done|]. by destruct Hsome.
    - intros Hall. rewrite input_is_vectorized_loop_spec by done. simpl.
      by destruct (contains_true _). }
  split; [done|].
  intros prop_name Hin Hlong. apply eq_None_not_Some. rewrite Hiff.
  rewrite Forall_forall. intros Hall. specialize (Hall _ Hin).
  destruct mode; simpl in Hall.
  - destruct Hall as [Hs|Hs]; rewrite Hs in Hlong; simpl in Hlong; lia.
  - lia.
Qed.

(** X9.  [has_data_sockets] tells whether mapping the graph node does
    anything: when it answers false, [map_data_sockets] returns the builder
    as it was, for any network node, even one without sockets; when it
    answers true, a returning [map_data_sockets] has changed the socket
    map. *)
Theorem X9_has_data_sockets_decides_mapping this fnode :
  (has_data_sockets this fnode = false →
     ∀ node, map_data_sockets this fnode node = Some this) ∧
  (has_data_sockets this fnode = true →
     ∀ node this', map_data_sockets this fnode node = Some this' →
                   m_socket_by_fsocket this' ≠ m_socket_by_fsocket this).
Proof.
  split.
  - intros [Hin Hout]%has_data_sockets_false node.
    rewrite map_data_sockets_spec, Hin, Hout.
    rewrite decide_True by (simpl; lia). unfold positional_pairs.
    rewrite Hin, Hout. simpl. by rewrite with_socket_by_fsocket_same.
  - intros Hhas node this' Hcall Hsame.
    assert (∃ fsocket, fsocket ∈ fnode_sockets fnode ∧ is_data_socket this fsocket)
      as (fsocket & Hfs & Hdata).
    { unfold has_data_sockets in Hhas.
      apply orb_true_iff in Hhas as [Hex|Hex];
        apply existsb_exists in Hex as (fsocket & Hin & Hdata);
        exists fsocket; (split; [|by apply Is_true_true_2]);
        apply elem_of_app; [left|right]; by apply list_elem_of_In. }
    destruct (map_data_sockets_gain _ _ _ _ fsocket Hcall) as (gained & Hids & _ & Hne).
    unfold mapped_ids in Hids. rewrite Hsame in Hids.
    apply (Hne Hfs Hdata).
    rewrite <-(app_nil_r (IdMultiMap_lookup _ _)) in Hids at 1.
    by apply app_inv_head in Hids.
Qed.

End builder_more_facts.

(** * Properties of the remesh operators *)

Section remesh_facts.
Import remesh.
Context {Float World : Type} `{!Host (Float:=Float) World}.
Implicit Types (w : World) (calls : list (Call (Float:=Float))).
Implicit Types (status : OperatorStatus) (c : Call (Float:=Float)).

(** Unfold an operator body into the nested tests of its statements. *)
Ltac run_unfold :=
  unfold quadriflow_remesh_exec, voxel_remesh_exec, object_remesh_poll,
    sculpt_with_dyntopo, RNA_boolean, RNA_int, active_object_member,
    copy_mesh_vertices, mesh_member, tag_and_notify, when, call, note, read, undefined,
    mbind, mret, Run_bind, Run_ret, bind, ret in *;
  cbn beta iota in *.

(** Decide the first test of the run whose condition is a value. *)
Ltac run_step H :=
  match type of H with
  | context [if ?b then _ else _] =>
      lazymatch b with
      | context [match _ with _ => _ end] => fail
      | _ => destruct b eqn:?
      end
  | context [match ?o with Some _ => _ | None => _ end] =>
      lazymatch o with
      | context [match _ with _ => _ end] => fail
      | _ => destruct o eqn:?
      end
  end; cbn beta iota in H.

(** The same, without keeping the condition. *)
Ltac run_case H :=
  match type of H with
  | context [if ?b then _ else _] =>
      lazymatch b with
      | context [match _ with _ => _ end] => fail
      | _ => destruct b
      end
  end; cbn beta iota in H.

(** Membership of a call in the calls of one path of a run: proved by
    finding the call, refuted by going through the calls. *)
Ltac mem_prove :=
  lazymatch goal with
  | |- _ ∈ _ :: _ =>
      first [ apply list_elem_of_here | apply list_elem_of_further; mem_prove ]
  | |- _ ∈ _ ++ _ =>
      first [ apply elem_of_app; left; mem_prove
            | apply elem_of_app; right; mem_prove ]
  end.

Ltac mem_refute H :=
  lazymatch type of H with
  | _ ∈ [] => by apply elem_of_nil in H
  | _ ∈ _ :: _ =>
      apply elem_of_cons in H; destruct H as [H|H];
      [discriminate H | mem_refute H]
  | _ ∈ _ ++ _ =>
      apply elem_of_app in H; destruct H as [H|H]; mem_refute H
  | _ ∈ _ <$> _ =>
      apply list_elem_of_fmap in H; destruct H as (? & H & _); discriminate H
  end.

Ltac mem_cases H :=
  lazymatch type of H with
  | _ ∈ [] => by apply elem_of_nil in H
  | _ ∈ _ :: _ =>
      apply elem_of_cons in H; destruct H as [->|H]; [|mem_cases H]
  end.

Ltac mem_iff :=
  split;
  [ let Hl := fresh in
    intros Hl;
    first [ mem_prove | discriminate Hl | by destruct Hl ]
  | let Hin := fresh in
    intros Hin;
    first [ solve [mem_refute Hin] | done ] ].

Ltac mem_split H :=
  lazymatch type of H with
  | _ ∈ [] => by apply elem_of_nil in H
  | _ ∈ _ :: _ =>
      apply elem_of_cons in H; destruct H as [->|H]; [|mem_split H]
  | _ ∈ _ ++ _ =>
      apply elem_of_app in H; destruct H as [H|H]; mem_split H
  | _ ∈ _ <$> _ =>
      apply list_elem_of_fmap in H; destruct H as (? & -> & _)
  end.

(** The path of a run under the equations of the context, with the cases
    of the tests they leave open. *)
Ltac run_cases_known H :=
  repeat first
    [ match goal with
      | E : _ = _ |- _ =>
          tryif constr_eq E H then fail
          else (rewrite E in H; cbn beta iota delta [negb] in H)
      end
    | run_case H ].

(** The cases of a run under known facts about the host. *)
Ltac run_cases_with H E :=
  repeat first [ rewrite E in H; cbn beta iota in H | run_case H ].

Ltac run_cases_with2 H E F :=
  repeat first [ rewrite E in H; cbn beta iota in H
               | rewrite F in H; cbn beta iota in H
               | run_case H ].

Ltac ends_solve :=
  repeat first [ by eexists [] | apply suffix_cons_r | apply suffix_app_r ].

(** X10.  The poll fails outright only in edit mode.  In sculpt mode with
    dyntopo on it sets the dyntopo message and goes on: its answer is that
    of the host's poll for an editable mesh, asked after the message is
    set.  Otherwise it sets no message and gives the host's answer.  It has
    no result without an active object, or in sculpt mode without a sculpt
    session. *)
Theorem X10_poll_fails_in_edit_mode_only w :
  let edit_msg := CTX_wm_operator_poll_msg_set
                    "The voxel remesher cannot run from edit mode." in
  let dyntopo_msg := CTX_wm_operator_poll_msg_set
                       "The voxel remesher cannot run with dyntopo activated." in
  (BKE_object_is_in_editmode w = true →
     object_remesh_poll w = Some (false, host_call edit_msg w, [edit_msg])) ∧
  (BKE_object_is_in_editmode w = false → active_object w = true →
     ob_mode w = OB_MODE_SCULPT → ob_sculpt_bm w = Some true →
     object_remesh_poll w =
     Some (ED_operator_object_active_editable_mesh (host_call dyntopo_msg w),
           host_call dyntopo_msg w, [dyntopo_msg])) ∧
  (BKE_object_is_in_editmode w = false → active_object w = true →
     ob_mode w ≠ OB_MODE_SCULPT ∨ ob_sculpt_bm w = Some false →
     object_remesh_poll w =
     Some (ED_operator_object_active_editable_mesh w, w, [])) ∧
  (BKE_object_is_in_editmode w = false →
     ∀ result w' calls,
       object_remesh_poll w = Some (result, w', calls) →
       result = ED_operator_object_active_editable_mesh w' ∧
       (calls = [] ∧ w' = w ∨
        calls = [dyntopo_msg] ∧ w' = host_call dyntopo_msg w ∧
        ob_mode w = OB_MODE_SCULPT ∧ ob_sculpt_bm w = Some true)) ∧
  (BKE_object_is_in_editmode w = false →
     (object_remesh_poll w = None ↔
      active_object w = false ∨
      ob_mode w = OB_MODE_SCULPT ∧ ob_sculpt_bm w = None)).
Proof.
  intros edit_msg dyntopo_msg. subst edit_msg dyntopo_msg.
  split_and!; intros Hedit.
  - run_unfold. by rewrite Hedit.
  - intros Hob Hmode Hbm. apply (bool_decide_eq_true_2 _) in Hmode.
    destruct (object_remesh_poll w) as [r|] eqn:Hrun; run_unfold;
      run_cases_known Hrun; by simplify_eq.
  - intros Hob Hcase.
    destruct (bool_decide (ob_mode w = OB_MODE_SCULPT)) eqn:Hmode.
    + destruct Hcase as [Hne|Hbm];
        [by apply bool_decide_eq_true in Hmode|].
      destruct (object_remesh_poll w) as [r|] eqn:Hrun; run_unfold;
        run_cases_known Hrun; by simplify_eq.
    + clear Hcase.
      destruct (object_remesh_poll w) as [r|] eqn:Hrun; run_unfold;
        run_cases_known Hrun; by simplify_eq.
  - intros result w' calls Hrun. run_unfold.
    repeat run_step Hrun; simplify_eq/=;
      repeat match goal with
             | H : bool_decide _ = true |- _ => apply bool_decide_eq_true in H
             end; naive_solver.
  - split.
    + intros Hrun. run_unfold.
      repeat run_step Hrun; simplify_eq/=;
        repeat match goal with
               | H : bool_decide _ = true |- _ => apply bool_decide_eq_true in H
               end; naive_solver.
    + intros Hcase. destruct (object_remesh_poll w) eqn:Hrun; [exfalso|done].
      run_unfold.
      repeat run_step Hrun; simplify_eq/=;
        repeat match goal with
               | H : bool_decide _ = false |- _ => apply bool_decide_eq_false in H
               end; naive_solver.
Qed.

(** X11.  Both operators replace the mesh exactly in the runs they report
    as finished (the frozen run of the QuadriFlow operator apart), and such
    a run ends with the four calls that tag and notify. *)
Theorem X11_mesh_replaced_iff_finished w status w' calls :
  let closing := [BKE_mesh_batch_cache_dirty_tag; DEG_relations_tag_update;
                  DEG_id_tag_update; WM_event_add_notifier] in
  (voxel_remesh_exec w = Some (status, w', calls) →
     (status = OPERATOR_FINISHED ↔ BKE_mesh_nomain_to_mesh ∈ calls) ∧
     (status = OPERATOR_FINISHED → closing `suffix_of` calls) ∧
     (status = OPERATOR_CANCELLED → ∀ c, c ∈ closing → c ∉ calls)) ∧
  (quadriflow_remesh_exec w = Some (status, w', calls) →
     (status = OPERATOR_FINISHED ∧ rna_boolean w "use_freeze" = false ↔
      BKE_mesh_nomain_to_mesh ∈ calls) ∧
     (BKE_mesh_nomain_to_mesh ∈ calls → closing `suffix_of` calls) ∧
     (BKE_mesh_nomain_to_mesh ∉ calls → ∀ c, c ∈ closing → c ∉ calls)).
Proof.
  intros closing. subst closing.
  split; intros Hrun; run_unfold; repeat run_case Hrun; simplify_eq;
    (split_and!; [mem_iff| |]);
    first [ solve [intros ?; discriminate]
          | solve [intros _; ends_solve]
          | solve [intros _ c Hc Hin; mem_cases Hc; mem_refute Hin]
          | solve [intros Hin; mem_refute Hin]
          | solve [intros Hnot; destruct Hnot; mem_prove] ].
Qed.

(** X12.  A run that is cancelled because the remesher returned no mesh
    has, in sculpt mode, begun the geometry undo step and not ended it. *)
Theorem X12_cancelled_run_leaves_undo_open w status w' calls :
  status = OPERATOR_CANCELLED →
  ob_mode w = OB_MODE_SCULPT →
  (voxel_remesh_exec w = Some (status, w', calls) →
     float_le_zero (mesh_remesh_voxel_size w) = false →
     ED_sculpt_undo_geometry_begin ∈ calls ∧
     ED_sculpt_undo_geometry_end ∉ calls) ∧
  (quadriflow_remesh_exec w = Some (status, w', calls) →
     ED_sculpt_undo_geometry_begin ∈ calls ∧
     ED_sculpt_undo_geometry_end ∉ calls).
Proof.
  intros -> Hmode. apply (bool_decide_eq_true_2 _) in Hmode.
  split.
  - intros Hrun Hsize. run_unfold.
    run_cases_with2 Hrun Hmode Hsize; simplify_eq;
      (split; [mem_prove|intros Hin; mem_refute Hin]).
  - intros Hrun. run_unfold.
    run_cases_with Hrun Hmode; simplify_eq;
      (split; [mem_prove|intros Hin; mem_refute Hin]).
Qed.

(** X13.  When the host leaves the mode of the object alone, a finished run
    begins and ends the geometry undo step exactly in sculpt mode. *)
Theorem X13_finished_run_closes_undo w status w' calls :
  mode_stable (World:=World) →
  status = OPERATOR_FINISHED →
  (voxel_remesh_exec w = Some (status, w', calls) →
     (ED_sculpt_undo_geometry_begin ∈ calls ↔ ob_mode w = OB_MODE_SCULPT) ∧
     (ED_sculpt_undo_geometry_end ∈ calls ↔ ob_mode w = OB_MODE_SCULPT)) ∧
  (quadriflow_remesh_exec w = Some (status, w', calls) →
     rna_boolean w "use_freeze" = false →
     (ED_sculpt_undo_geometry_begin ∈ calls ↔ ob_mode w = OB_MODE_SCULPT) ∧
     (ED_sculpt_undo_geometry_end ∈ calls ↔ ob_mode w = OB_MODE_SCULPT)).
Proof.
  intros Hstable ->. unfold mode_stable in Hstable.
  destruct (decide (ob_mode w = OB_MODE_SCULPT)) as [Hmode|Hmode].
  - pose proof (bool_decide_eq_true_2 _ Hmode) as Hdec.
    split; [intros Hrun|intros Hrun Hfreeze]; run_unfold.
    + run_cases_with2 Hrun Hstable Hdec; simplify_eq;
        (split; (split; [done|intros _; mem_prove])).
    + rewrite Hfreeze in Hrun. cbn beta iota in Hrun.
      run_cases_with2 Hrun Hstable Hdec; simplify_eq;
        (split; (split; [done|intros _; mem_prove])).
  - pose proof (bool_decide_eq_false_2 _ Hmode) as Hdec.
    split; [intros Hrun|intros Hrun Hfreeze]; run_unfold.
    + run_cases_with2 Hrun Hstable Hdec; simplify_eq;
        (split; (split; [intros Hin; mem_refute Hin|done])).
    + rewrite Hfreeze in Hrun. cbn beta iota in Hrun.
      run_cases_with2 Hrun Hstable Hdec; simplify_eq;
        (split; (split; [intros Hin; mem_refute Hin|done])).
Qed.

(** X14.  The copy of the mesh made for the paint mask is freed in every
    run that makes it, the reprojection always receives that copy, and
    nothing is freed or reprojected without it: always for the QuadriFlow
    operator, which tests a local constant, and for the voxel operator when
    the host leaves the flag of the mesh alone between its three tests. *)
Theorem X14_paint_mask_copy_is_freed w status w' calls :
  let disciplined :=
    ((∃ n, BKE_mesh_new_nomain_from_template n ∈ calls) ↔
     BKE_mesh_free true ∈ calls) ∧
    (BKE_mesh_free true ∈ calls ↔
     BKE_remesh_reproject_paint_mask true ∈ calls) ∧
    (BKE_mesh_free false ∉ calls) ∧
    (BKE_remesh_reproject_paint_mask false ∉ calls) in
  (quadriflow_remesh_exec w = Some (status, w', calls) → disciplined) ∧
  (flag_stable (World:=World) →
   voxel_remesh_exec w = Some (status, w', calls) → disciplined).
Proof.
  intros disciplined. subst disciplined.
  split; [intros Hrun|intros Hstable Hrun; unfold flag_stable in Hstable];
    run_unfold.
  - repeat run_case Hrun; simplify_eq;
      (split_and!;
       [ split; [intros [n Hin]; first [mem_prove|mem_refute Hin]
                |intros Hin; first [eexists; mem_prove|mem_refute Hin]]
       | split; intros Hin; first [mem_prove|mem_refute Hin]
       | intros Hin; mem_refute Hin
       | intros Hin; mem_refute Hin ]).
  - repeat first
      [ rewrite Hstable in Hrun
      | match type of Hrun with
        | context [has_flag ?f ?m] =>
            lazymatch f with
            | context [match _ with _ => _ end] => fail
            | _ => destruct (has_flag f m) eqn:?
            end
        end; cbn beta iota in Hrun
      | match goal with
        | E : has_flag ?f ?m = _ |- _ => rewrite E in Hrun; cbn beta iota in Hrun
        end
      | run_case Hrun ];
      simplify_eq;
      (split_and!;
       [ split; [intros [n Hin]; first [mem_prove|mem_refute Hin]
                |intros Hin; first [eexists; mem_prove|mem_refute Hin]]
       | split; intros Hin; first [mem_prove|mem_refute Hin]
       | intros Hin; mem_refute Hin
       | intros Hin; mem_refute Hin ]).
Qed.

(** X15.  The voxel operator has a result exactly when there is an active
    object and its data pointer is set: it reads the voxel size through
    that pointer first.  The QuadriFlow operator has a result exactly when
    it is frozen, or there is an active object and the run does not read
    through a null data pointer: the pointer is set, or the remesher returns
    no mesh, or the paint mask is not asked for.  The frozen run only reads
    the freeze property and reports.  A voxel size of at most zero cancels
    the voxel operator with its report as the only call. *)
Theorem X15_runs_defined_iff_pointers_set w :
  let frozen_report :=
    BKE_report RPT_INFO
      "Operator is frozen, changes to its settings won't take effect until you unfreeze it" in
  let size_report :=
    BKE_report RPT_ERROR "Voxel remesher cannot run with a voxel size of 0.0." in
  let begun :=
    if bool_decide (ob_mode w = OB_MODE_SCULPT)
    then host_call ED_sculpt_undo_geometry_begin w else w in
  let remeshed :=
    host_call
      (BKE_mesh_remesh_quadriflow_to_mesh_nomain
         (rna_int begun "target_faces") (rna_int begun "seed")
         (rna_boolean begun "preserve_sharp") (rna_boolean begun "adaptive_scale"))
      begun in
  (is_Some (voxel_remesh_exec w) ↔ active_object w = true ∧ ob_data w = true) ∧
  (is_Some (quadriflow_remesh_exec w) ↔
   rna_boolean w "use_freeze" = true ∨
   active_object w = true ∧
   (ob_data w = true ∨ new_mesh remeshed = false ∨
    rna_boolean begun "proj_paint_mask" = false)) ∧
  (rna_boolean w "use_freeze" = true →
   quadriflow_remesh_exec w =
   Some (OPERATOR_FINISHED, host_call frozen_report w,
         [RNA_boolean_get "use_freeze"; frozen_report])) ∧
  (active_object w = true → ob_data w = true →
   float_le_zero (mesh_remesh_voxel_size w) = true →
   voxel_remesh_exec w =
   Some (OPERATOR_CANCELLED, host_call size_report w, [size_report])).
Proof.
  intros frozen_report size_report begun remeshed.
  subst frozen_report size_report remeshed begun.
  split_and!.
  - destruct (active_object w) eqn:Hob; destruct (ob_data w) eqn:Hdata;
      destruct (voxel_remesh_exec w) as [r|] eqn:Hrun;
      run_unfold; run_cases_known Hrun; try discriminate Hrun;
      (split; [intros Hsome|intros [? ?]]);
      first [ done | by eexists | by destruct Hsome as [? [=]] ].
  - destruct (rna_boolean w "use_freeze") eqn:Hfreeze;
      destruct (active_object w) eqn:Hob; destruct (ob_data w) eqn:Hdata;
      destruct (bool_decide (ob_mode w = OB_MODE_SCULPT)) eqn:Hmode;
      cbn iota;
      match goal with
      | |- context [new_mesh ?x] => destruct (new_mesh x) eqn:Hnew
      end;
      match goal with
      | |- context [rna_boolean ?x "proj_paint_mask"] =>
          destruct (rna_boolean x "proj_paint_mask") eqn:Hpaint
      end;
      destruct (quadriflow_remesh_exec w) as [r|] eqn:Hrun;
      run_unfold; run_cases_known Hrun; try discriminate Hrun;
      (split; [intros Hsome|intros Hcase]);
      first [ by eexists | by destruct Hsome as [? [=]] | naive_solver ].
  - intros Hfreeze. run_unfold. by rewrite Hfreeze.
  - intros Hob Hdata Hsize. run_unfold. rewrite Hob. cbn beta iota.
    rewrite Hdata. cbn beta iota. by rewrite Hsize.
Qed.

(** X16.  The QuadriFlow operator reads only properties that its operator
    type declares, each with the kind it is declared with; a run that is not
    frozen reads every one of them.  The voxel operator declares and reads
    none. *)
Theorem X16_properties_read_are_declared
    (OPTYPE_REGISTER OPTYPE_UNDO : Z) (ot : wmOperatorType) w status w' calls :
  let declared :=
    property_declared <$>
    ot_srna (OBJECT_OT_quadriflow_remesh OPTYPE_REGISTER OPTYPE_UNDO ot) in
  (quadriflow_remesh_exec w = Some (status, w', calls) →
     (∀ c key, c ∈ calls → property_read c = Some key → key ∈ declared) ∧
     (rna_boolean w "use_freeze" = false → ot_srna ot = [] →
      ∀ key, key ∈ declared → ∃ c, c ∈ calls ∧ property_read c = Some key)) ∧
  (voxel_remesh_exec w = Some (status, w', calls) →
     (∀ c, c ∈ calls → property_read c = None) ∧
     ot_srna (OBJECT_OT_voxel_remesh OPTYPE_REGISTER OPTYPE_UNDO ot) =
     ot_srna ot).
Proof.
  intros declared. subst declared. split; intros Hrun; run_unfold.
  - split.
    + intros c key Hc Hread. unfold OBJECT_OT_quadriflow_remesh.
      cbn [ot_srna]. rewrite fmap_app. apply elem_of_app. right. cbn [fmap list_fmap
        property_declared].
      revert Hread.
      repeat run_case Hrun; simplify_eq; mem_split Hc;
        (intros [= <-]; mem_prove).
    + intros Hfreeze Hempty key Hkey.
      unfold OBJECT_OT_quadriflow_remesh in Hkey. cbn [ot_srna] in Hkey.
      rewrite Hempty in Hkey. cbn [app fmap list_fmap property_declared] in Hkey.
      rewrite Hfreeze in Hrun. cbn beta iota in Hrun.
      repeat run_case Hrun; simplify_eq; mem_cases Hkey;
        match goal with
        | |- ∃ c, _ ∧ property_read c = Some (?n, true) =>
            exists (RNA_boolean_get n)
        | |- ∃ c, _ ∧ property_read c = Some (?n, false) =>
            exists (RNA_int_get n)
        end; (split; [mem_prove|done]).
  - split; [|done].
    intros c Hc. repeat run_case Hrun; simplify_eq; by mem_split Hc.
Qed.

End remesh_facts.

(** * The further properties on the examples *)

Section function_bvm_example_facts.
Import blenvm.

(** The second argument of the example function, read at its index, is the
    one found under its name. *)
Lemma X3_distinct_names_witness :
  argument_at example_function 1 = Some (mkArgument "float" "y" 1%Z) ∧
  argument example_function "y" = Some (mkArgument "float" "y" 1%Z).
Proof.
  split; [reflexivity|].
  apply (X3_distinct_names_index_then_name example_function 1
           (mkArgument "float" "y" 1%Z)).
  - vm_compute. repeat constructor; set_solver.
  - reflexivity.
Defined.

End function_bvm_example_facts.

Section builder_example_facts.
Import FN FN.scenario.

Lemma dummy1_call :
  ∃ node, add_dummy builder0 fnode = Some (node, dummy1).
Proof.
  exists (default node_add (fst <$> add_dummy builder0 fnode)). by vm_compute.
Qed.

(** Making the node of the first scenario a dummy node on the fresh builder
    keeps the (empty) entries and gives socket a its first one. *)
Lemma X5_append_only_witness :
  maps_fnode builder0 fnode dummy1 ∧
  (∀ fsocket, mapped_ids builder0 fsocket `prefix_of` mapped_ids dummy1 fsocket) ∧
  length (mapped_ids builder0 a) < length (mapped_ids dummy1 a).
Proof.
  assert (maps_fnode builder0 fnode dummy1) as Hstep
    by (right; left; exact dummy1_call).
  destruct (X5_mapping_is_append_only builder0 fnode dummy1 Hstep)
    as (Hprefix & Hgain & _).
  split_and!; [done|done|]. apply Hgain.
  - apply list_elem_of_here.
  - by vm_compute.
Defined.

(** The builder of that scenario is reached from the constructor, and
    [build] returns on it. *)
Lemma X6_constructed_witness :
  constructed dummy1 ∧ entries_registered dummy1 ∧
  is_Some (build UNMAPPED dummy1).
Proof.
  assert (constructed dummy1) as Hc.
  { destruct dummy1_call as [node Hcall].
    eapply constructed_add_dummy; [|exact Hcall]. apply constructed_new. }
  split; [done|]. by apply X6_constructed_builder_builds.
Defined.

(** In that scenario network socket 1 is recorded under graph socket c
    only, and slot 1 of the reverse table holds the id of c. *)
Lemma X7_reverse_table_witness :
  ∃ net,
    build UNMAPPED dummy1 = Some net ∧
    map_fsocket_by_socket (socket_map net) !! 1 = Some (fsocket_id c).
Proof.
  destruct (build UNMAPPED dummy1) as [net|] eqn:Hbuild;
    [|by vm_compute in Hbuild].
  exists net. split; [done|].
  apply (X7_reverse_table_inverts_unique_entry UNMAPPED dummy1 net 2 1 Hbuild).
  - vm_compute. lia.
  - vm_compute. apply list_elem_of_here.
  - intros f' Hlt Hin.
    assert (f' = 0 ∨ f' = 1 ∨ f' = 2 ∨ f' = 3) as [-> | [-> | [-> | ->]]]
      by (vm_compute in Hlt; lia);
      vm_compute in Hin; try done; exfalso; set_solver.
Defined.

End builder_example_facts.

Section remesh_example_facts.
Import remesh remesh.example.

Lemma example_mode_stable : mode_stable (World:=World).
Proof. intros c w. by destruct c. Qed.

Lemma example_flag_stable : flag_stable (World:=World).
Proof. intros c w. by destruct c. Qed.

(** In edit mode the poll fails with its message; in sculpt mode with
    dyntopo on it sets the other message and still answers true. *)
Lemma X10_poll_witness :
  object_remesh_poll editing =
    Some (false, editing,
          [CTX_wm_operator_poll_msg_set
             "The voxel remesher cannot run from edit mode."]) ∧
  object_remesh_poll sculpting =
    Some (true, sculpting,
          [CTX_wm_operator_poll_msg_set
             "The voxel remesher cannot run with dyntopo activated."]).
Proof.
  destruct (X10_poll_fails_in_edit_mode_only editing) as (Hedit & _).
  destruct (X10_poll_fails_in_edit_mode_only sculpting) as (_ & Hdyntopo & _).
  split; [exact (Hedit eq_refl)|].
  exact (Hdyntopo eq_refl eq_refl eq_refl eq_refl).
Defined.

(** The voxel operator finishes on the sculpting example and replaces the
    mesh. *)
Lemma X11_mesh_replaced_witness :
  ∃ w' calls,
    voxel_remesh_exec sculpting = Some (OPERATOR_FINISHED, w', calls) ∧
    BKE_mesh_nomain_to_mesh ∈ calls.
Proof.
  eexists _, _. split; [reflexivity|].
  by eapply (proj1 (X11_mesh_replaced_iff_finished sculpting OPERATOR_FINISHED _ _)).
Defined.

(** With a remesher that returns no mesh the run is cancelled after the
    undo step was begun. *)
Lemma X12_undo_left_open_witness :
  ∃ w' calls,
    voxel_remesh_exec failing = Some (OPERATOR_CANCELLED, w', calls) ∧
    ED_sculpt_undo_geometry_begin ∈ calls ∧
    ED_sculpt_undo_geometry_end ∉ calls.
Proof.
  eexists _, _. split; [reflexivity|].
  assert (ob_mode failing = OB_MODE_SCULPT) as Hmode by reflexivity.
  by eapply (proj1 (X12_cancelled_run_leaves_undo_open failing
                      OPERATOR_CANCELLED _ _ eq_refl Hmode)).
Defined.

(** On the example host, which leaves the mode alone, the finished run in
    sculpt mode begins and ends the undo step. *)
Lemma X13_undo_closed_witness :
  ∃ w' calls,
    voxel_remesh_exec sculpting = Some (OPERATOR_FINISHED, w', calls) ∧
    ED_sculpt_undo_geometry_begin ∈ calls ∧
    ED_sculpt_undo_geometry_end ∈ calls.
Proof.
  eexists _, _. split; [reflexivity|].
  destruct (proj1 (X13_finished_run_closes_undo sculpting OPERATOR_FINISHED _ _
                     example_mode_stable eq_refl) eq_refl) as [Hbegin Hend].
  split; [by apply Hbegin|by apply Hend].
Defined.

(** On the example host, which leaves the flag alone, the voxel operator
    frees the copy it makes for the paint mask. *)
Lemma X14_copy_freed_witness :
  ∃ w' calls,
    voxel_remesh_exec sculpting = Some (OPERATOR_FINISHED, w', calls) ∧
    BKE_mesh_new_nomain_from_template 3 ∈ calls ∧
    BKE_mesh_free true ∈ calls.
Proof.
  eexists _, _. split; [reflexivity|].
  destruct (proj2 (X14_paint_mask_copy_is_freed sculpting OPERATOR_FINISHED _ _)
              example_flag_stable eq_refl) as (Hfree & _).
  assert (BKE_mesh_new_nomain_from_template 3 ∈
          default [] ((λ r, r.2) <$> voxel_remesh_exec sculpting)) as Hin
    by (vm_compute; repeat constructor).
  split; [exact Hin|]. apply Hfree. by eexists.
Defined.

(** Without an active object the frozen QuadriFlow operator still
    finishes, and the voxel operator has no result.  With an active object
    that has no data neither operator has a result: the voxel operator reads
    the voxel size, the QuadriFlow operator the vertex count for the paint
    mask. *)
Lemma X15_frozen_witness :
  is_Some (quadriflow_remesh_exec frozen) ∧ voxel_remesh_exec frozen = None ∧
  voxel_remesh_exec without_data = None ∧
  quadriflow_remesh_exec without_data = None.
Proof.
  destruct (X15_runs_defined_iff_pointers_set frozen)
    as (Hvoxel & Hquadriflow & _).
  destruct (X15_runs_defined_iff_pointers_set without_data)
    as (Hvoxel' & Hquadriflow' & _).
  split_and!.
  - apply Hquadriflow. by left.
  - apply eq_None_not_Some. by intros [? ?]%Hvoxel.
  - apply eq_None_not_Some. by intros [? ?]%Hvoxel'.
  - apply eq_None_not_Some. intros [?|[_ [?|[?|?]]]]%Hquadriflow'; done.
Defined.

(** The QuadriFlow run on the sculpting example reads the seed, which the
    operator type declares as an integer property. *)
Lemma X16_properties_witness :
  ∃ status w' calls,
    quadriflow_remesh_exec sculpting = Some (status, w', calls) ∧
    RNA_int_get "seed" ∈ calls ∧
    ("seed", false) ∈
      property_declared <$>
      ot_srna (OBJECT_OT_quadriflow_remesh 1 2 (mkOperatorType "" "" "" None None None 0 [])).
Proof.
  destruct (quadriflow_remesh_exec sculpting) as [[[status w'] calls]|] eqn:Hrun;
    [|by vm_compute in Hrun].
  exists status, w', calls. split; [done|].
  assert (RNA_int_get "seed" ∈ calls) as Hin.
  { vm_compute in Hrun. injection Hrun as _ _ <-. repeat constructor. }
  split; [exact Hin|].
  eapply (proj1 (proj1 (X16_properties_read_are_declared 1 2 _ sculpting
                          status w' calls) Hrun)); [exact Hin|done].
Defined.

End remesh_example_facts.
